(** * WebRTCService: a shallow embedding of the call-session orchestrator

    The class [WebRTCService] keeps one control-channel socket, one peer
    connection, the local and remote media handles, the session id, a
    connected flag and a table of seven callback slots.  Its methods are
    embedded here as computations over an explicit [State]; every action on
    the outside world (a frame put on the wire, a track stopped, a UI
    handler invoked, a console line) is appended to a trace kept in the
    state, and an exception leaves the state as it was when thrown.

    Embedded: the constructor, [connect] with the [onopen], [onclose] and
    [onmessage] handlers it installs, [handleWebSocketMessage],
    [createSession] with the closures it installs and its timer callback,
    [handleRemoteAnswer], [setLanguages], [endCall], [on] and [disconnect].
    The [onerror] handler and [setupPeerConnection] with its peer-connection
    handlers are not: they pass around platform objects (the error event,
    the local description, the remote stream, the connection state) that
    the state here does not hold.  The states [setupPeerConnection] leads
    to are written down directly.

    Conventions:
    - a UI handler is opaque: calling it is recorded in the trace, and it
      is taken neither to throw nor to call back into the service;
    - a callback given to [on] is [null] or a function;
    - the continuation of the [async] method [handleRemoteAnswer] runs as
      soon as the platform has settled, with no other event in between;
    - the frame sent for a payload [v] is [JSON.stringify(v)]; the trace
      keeps [v]. *)

From Stdlib Require Import ZArith Ascii.
From stdpp Require Import gmap strings list fin_maps.

Set Warnings "-register-all,-clear-no-such-hyp".

Local Open Scope string_scope.
Local Open Scope list_scope.
Local Open Scope Z_scope.

(** ** JavaScript values *)

(** The values that travel through the service: what [JSON.parse] can
    return, plus [undefined] (a missing property).  A number keeps its exact
    decimal value [mantissa * 10 ^ exponent]. *)
Inductive JsVal : Type :=
  | VUndefined
  | VNull
  | VBool (b : bool)
  | VNum (mantissa exponent : Z)
  | VStr (s : string)
  | VArr (items : list JsVal)
  | VObj (props : list (string * JsVal)).

(** A JSON number is read as an IEEE double: it is [0] exactly when its
    decimal value is at most half of the least subnormal, [2 ^ -1075]. *)
Definition num_is_zero (m e : Z) : bool :=
  (m =? 0) || ((e <? 0) && (Z.abs m * 2 ^ 1075 <=? 10 ^ (- e))).

(** JavaScript truthiness, the test behind [if (x)] and [!x]. *)
Definition truthy (v : JsVal) : bool :=
  match v with
  | VUndefined | VNull => false
  | VBool b => b
  | VNum m e => negb (num_is_zero m e)
  | VStr s => negb (String.eqb s EmptyString)
  | VArr _ | VObj _ => true
  end.

(** Reading the property [k] of an object literal or parsed object; a later
    binding of the same key wins, as in [JSON.parse]. *)
Fixpoint assoc_last (k : string) (props : list (string * JsVal)) : option JsVal :=
  match props with
  | [] => None
  | (k', v) :: rest =>
      match assoc_last k rest with
      | Some w => Some w
      | None => if String.eqb k k' then Some v else None
      end
  end.

(** [data.k] for the property names the service reads, none of which is
    found on a built-in prototype: [undefined] unless [data] is an object
    that owns [k]. *)
Definition get_prop (data : JsVal) (k : string) : JsVal :=
  match data with
  | VObj props => default VUndefined (assoc_last k props)
  | _ => VUndefined
  end.

(** [v === 'lit'] against a string literal. *)
Definition is_str (v : JsVal) (lit : string) : bool :=
  match v with
  | VStr s => String.eqb s lit
  | _ => false
  end.

(** ** Errors *)

Inductive JsError : Type :=
  | Error (message : string)          (* new Error(message) *)
  | TypeError (message : string)
  | SyntaxError (message : string)
  | InvalidStateError (message : string).   (* DOMException *)

(** ** Host objects *)

Inductive ReadyState := CONNECTING | OPEN | CLOSING | CLOSED.

Record WebSocket := { url : string; readyState : ReadyState }.

Inductive SignalingState :=
  | Stable | HaveLocalOffer | HaveRemoteOffer
  | HaveLocalPranswer | HaveRemotePranswer | SigClosed.

(** The peer connection as far as the service touches it: the signalling
    state and the remote descriptions it holds. *)
Record PeerConnection := {
  signalingState : SignalingState;
  currentRemoteDescription : option JsVal;
  pendingRemoteDescription : option JsVal
}.


(** A media stream is the list of its tracks, each named by a number. *)
Record MediaStream := { tracks : list nat }.

(** ** Callbacks *)

(** A callback slot holds [null] or a function.  The functions that can sit
    in a slot are the ones the UI registers, opaque and named by a number,
    and the two closures [createSession] builds around the session-created
    slot. *)
Inductive Handler : Type :=
  | UserFn (id : nat)
  | TempSessionHandler (promise : nat) (originalCallback : option Handler)
  | Forwarder (originalCallback : option Handler).

Inductive PromiseState :=
  | Pending
  | Resolved (value : JsVal)
  | Rejected (reason : JsError).

(** The callback given to [setTimeout] in [createSession], with the two
    variables it closes over. *)
Record Timer := {
  due : Z;
  timer_promise : nat;
  timer_original : option Handler
}.

Inductive LogArg := NoArg | ArgVal (v : JsVal) | ArgErr (e : JsError).

Inductive Effect : Type :=
  | WsSend (payload : JsVal)       (* frame JSON.stringify(payload) put on the wire *)
  | WsClose
  | PcClose
  | PcSetRemoteDescription (desc : JsVal)
  | TrackStop (track : nat)
  | Notify (fn : nat) (arg : JsVal)      (* a UI handler was called *)
  | ConsoleLog (msg : string) (arg : LogArg)
  | ConsoleError (msg : string) (arg : LogArg).

(** ** The service state *)

Record State := {
  websocket : option WebSocket;
  peerConnection : option PeerConnection;
  localStream : option MediaStream;
  remoteStream : option MediaStream;
  sessionId : JsVal;
  isConnected : bool;
  callbacks : gmap string (option Handler);
  (* the surrounding runtime *)
  promises : list PromiseState;
  timers : list Timer;
  now : Z;
  trace : list Effect
}.

(** [new WebRTCService()] in a fresh runtime. *)
Definition constructor : State := {|
  websocket := None;
  peerConnection := None;
  localStream := None;
  remoteStream := None;
  sessionId := VNull;
  isConnected := false;
  callbacks :=
    <["onConnectionStateChange" := None]>
    (<["onTranscript" := None]>
    (<["onTranslation" := None]>
    (<["onError" := None]>
    (<["onSessionCreated" := None]>
    (<["onCallEstablished" := None]>
    (<["onCallEnded" := None]> ∅))))));
  promises := [];
  timers := [];
  now := 0;
  trace := []
|}.

(** Field updates. *)
Definition with_websocket (w : option WebSocket) (st : State) : State :=
  {| websocket := w; peerConnection := peerConnection st;
     localStream := localStream st; remoteStream := remoteStream st;
     sessionId := sessionId st; isConnected := isConnected st;
     callbacks := callbacks st; promises := promises st;
     timers := timers st; now := now st; trace := trace st |}.

Definition with_peerConnection (pc : option PeerConnection) (st : State) : State :=
  {| websocket := websocket st; peerConnection := pc;
     localStream := localStream st; remoteStream := remoteStream st;
     sessionId := sessionId st; isConnected := isConnected st;
     callbacks := callbacks st; promises := promises st;
     timers := timers st; now := now st; trace := trace st |}.

Definition with_localStream (s : option MediaStream) (st : State) : State :=
  {| websocket := websocket st; peerConnection := peerConnection st;
     localStream := s; remoteStream := remoteStream st;
     sessionId := sessionId st; isConnected := isConnected st;
     callbacks := callbacks st; promises := promises st;
     timers := timers st; now := now st; trace := trace st |}.

Definition with_remoteStream (s : option MediaStream) (st : State) : State :=
  {| websocket := websocket st; peerConnection := peerConnection st;
     localStream := localStream st; remoteStream := s;
     sessionId := sessionId st; isConnected := isConnected st;
     callbacks := callbacks st; promises := promises st;
     timers := timers st; now := now st; trace := trace st |}.

Definition with_sessionId (v : JsVal) (st : State) : State :=
  {| websocket := websocket st; peerConnection := peerConnection st;
     localStream := localStream st; remoteStream := remoteStream st;
     sessionId := v; isConnected := isConnected st;
     callbacks := callbacks st; promises := promises st;
     timers := timers st; now := now st; trace := trace st |}.

Definition with_isConnected (b : bool) (st : State) : State :=
  {| websocket := websocket st; peerConnection := peerConnection st;
     localStream := localStream st; remoteStream := remoteStream st;
     sessionId := sessionId st; isConnected := b;
     callbacks := callbacks st; promises := promises st;
     timers := timers st; now := now st; trace := trace st |}.

Definition with_callbacks (c : gmap string (option Handler)) (st : State) : State :=
  {| websocket := websocket st; peerConnection := peerConnection st;
     localStream := localStream st; remoteStream := remoteStream st;
     sessionId := sessionId st; isConnected := isConnected st;
     callbacks := c; promises := promises st;
     timers := timers st; now := now st; trace := trace st |}.

Definition with_promises (ps : list PromiseState) (st : State) : State :=
  {| websocket := websocket st; peerConnection := peerConnection st;
     localStream := localStream st; remoteStream := remoteStream st;
     sessionId := sessionId st; isConnected := isConnected st;
     callbacks := callbacks st; promises := ps;
     timers := timers st; now := now st; trace := trace st |}.

Definition with_timers (ts : list Timer) (st : State) : State :=
  {| websocket := websocket st; peerConnection := peerConnection st;
     localStream := localStream st; remoteStream := remoteStream st;
     sessionId := sessionId st; isConnected := isConnected st;
     callbacks := callbacks st; promises := promises st;
     timers := ts; now := now st; trace := trace st |}.

Definition with_now (t : Z) (st : State) : State :=
  {| websocket := websocket st; peerConnection := peerConnection st;
     localStream := localStream st; remoteStream := remoteStream st;
     sessionId := sessionId st; isConnected := isConnected st;
     callbacks := callbacks st; promises := promises st;
     timers := timers st; now := t; trace := trace st |}.

Definition with_trace (tr : list Effect) (st : State) : State :=
  {| websocket := websocket st; peerConnection := peerConnection st;
     localStream := localStream st; remoteStream := remoteStream st;
     sessionId := sessionId st; isConnected := isConnected st;
     callbacks := callbacks st; promises := promises st;
     timers := timers st; now := now st; trace := tr |}.

(** ** Computations: state plus exceptions

    A method either returns or throws; in both cases the mutations made so
    far stay in the state. *)
Inductive Result (A : Type) : Type :=
  | Returned (a : A) (st : State)
  | Thrown (e : JsError) (st : State).
Arguments Returned {A} a st.
Arguments Thrown {A} e st.

Definition M (A : Type) : Type := State -> Result A.

Definition ret {A} (a : A) : M A := fun st => Returned a st.

Definition bind {A B} (c : M A) (k : A -> M B) : M B := fun st =>
  match c st with
  | Returned a st' => k a st'
  | Thrown e st' => Thrown e st'
  end.

Definition throw {A} (e : JsError) : M A := fun st => Thrown e st.

(** [try { c } catch (error) { h error }] *)
Definition try_catch {A} (c : M A) (h : JsError -> M A) : M A := fun st =>
  match c st with
  | Returned a st' => Returned a st'
  | Thrown e st' => h e st'
  end.

Definition get : M State := fun st => Returned st st.
Definition modify (f : State -> State) : M unit := fun st => Returned tt (f st).

Declare Scope js_scope.
Delimit Scope js_scope with js.
Notation "'let!' x ':=' c 'in' k" := (bind c (fun x => k))
  (at level 10, x name, c at level 100, k at level 200) : js_scope.
Notation "'do!' c 'in' k" := (bind c (fun _ => k))
  (at level 10, c at level 100, k at level 200) : js_scope.
Local Open Scope js_scope.

(** The state a computation ends in, and what it added to the trace. *)
Definition final {A} (r : Result A) : State :=
  match r with Returned _ st | Thrown _ st => st end.

Definition returns {A} (r : Result A) : bool :=
  match r with Returned _ _ => true | Thrown _ _ => false end.

Definition emit (e : Effect) : M unit :=
  modify (fun st => with_trace (trace st ++ [e]) st).

Definition console_log (msg : string) (arg : LogArg) : M unit :=
  emit (ConsoleLog msg arg).
Definition console_error (msg : string) (arg : LogArg) : M unit :=
  emit (ConsoleError msg arg).

(** [this.callbacks.name], read and written. *)
Definition slot_of (st : State) (name : string) : option Handler :=
  default None (callbacks st !! name).

Definition slot (name : string) : M (option Handler) :=
  fun st => Returned (slot_of st name) st.

Definition set_slot (name : string) (h : option Handler) : M unit :=
  modify (fun st => with_callbacks (<[name := h]> (callbacks st)) st).

(** ** Promises and timers *)

Definition new_promise : M nat := fun st =>
  Returned (length (promises st)) (with_promises (promises st ++ [Pending]) st).

(** A promise settles once: [resolve] and [reject] on a settled promise do
    nothing. *)
Definition settle (p : nat) (s : PromiseState) : M unit :=
  modify (fun st =>
    match promises st !! p with
    | Some Pending => with_promises (<[p := s]> (promises st)) st
    | _ => st
    end).

Definition resolve (p : nat) (v : JsVal) : M unit := settle p (Resolved v).
Definition reject (p : nat) (e : JsError) : M unit := settle p (Rejected e).

Definition promise_of (st : State) (p : nat) : option PromiseState :=
  promises st !! p.

Definition setTimeout (delay : Z) (p : nat) (orig : option Handler) : M unit :=
  modify (fun st =>
    with_timers (timers st ++ [{| due := now st + delay;
                                  timer_promise := p;
                                  timer_original := orig |}]) st).

(** ** The socket *)

(** [this.websocket.send(JSON.stringify(payload))].  Reading [send] off
    [null] is a TypeError; a socket still connecting refuses to send; an
    open one transmits; a closing or closed one drops the frame silently. *)
Definition ws_send (payload : JsVal) : M unit := fun st =>
  match websocket st with
  | None => Thrown (TypeError "Cannot read properties of null (reading 'send')") st
  | Some ws =>
      match readyState ws with
      | CONNECTING => Thrown (InvalidStateError "Still in CONNECTING state.") st
      | OPEN => emit (WsSend payload) st
      | CLOSING | CLOSED => Returned tt st
      end
  end.

(** [this.websocket.close()] on the socket the service holds. *)
Definition ws_close : M unit := fun st =>
  match websocket st with
  | None => Thrown (TypeError "Cannot read properties of null (reading 'close')") st
  | Some ws =>
      emit WsClose
        (with_websocket (Some {| url := url ws; readyState := CLOSING |}) st)
  end.

(** ** The platform

    Three things the service calls are the browser's, not the repository's:
    the JSON parser, the [RTCSessionDescription] constructor and the peer
    connection's [setRemoteDescription].  The service is embedded over any
    platform; [browser] below is a reference one.  A description object is
    represented by the dictionary it was built from. *)
Class Platform := {
  JSON_parse : string -> JsError + JsVal;
  RTCSessionDescription_check : JsVal -> option JsError;
  pc_setRemoteDescription : PeerConnection -> JsVal -> JsError + PeerConnection
}.

Section Service.
Context `{platform : Platform}.

(** ** Calling what sits in a callback slot *)

(** [UserFn]: the UI's handler runs; it is recorded and assumed neither to
    throw nor to call back into the service.
    [TempSessionHandler p orig]: the arrow function installed by
    [createSession]; it runs [sessionCreatedHandler] (resolve the promise,
    then wrap whatever is in the slot now in a forwarder) and then the
    callback saved at installation time.
    [Forwarder orig]: the arrow function [sessionCreatedHandler] installs. *)
Fixpoint call (h : Handler) (arg : JsVal) : M unit :=
  match h with
  | UserFn id => emit (Notify id arg)
  | TempSessionHandler p orig =>
      do! resolve p arg in
      let! originalCallback := slot "onSessionCreated" in
      do! set_slot "onSessionCreated" (Some (Forwarder originalCallback)) in
      match orig with
      | Some o => call o arg
      | None => ret tt
      end
  | Forwarder orig =>
      match orig with
      | Some o => call o arg
      | None => ret tt
      end
  end.

(** [if (this.callbacks.name) this.callbacks.name(arg)] *)
Definition notify (name : string) (arg : JsVal) : M unit :=
  let! cb := slot name in
  match cb with
  | Some h => call h arg
  | None => ret tt
  end.

(** ** handleRemoteAnswer

    The method is [async]; the continuation after [await] is run here as
    soon as the platform has settled [setRemoteDescription]. *)
Definition setRemoteDescription (pc : PeerConnection) (desc : JsVal) : M unit :=
  do! emit (PcSetRemoteDescription desc) in
  match pc_setRemoteDescription pc desc with
  | inl e => throw e
  | inr pc' => modify (with_peerConnection (Some pc'))
  end.

Definition handleRemoteAnswer (answer : JsVal) : M unit :=
  try_catch
    (let! st := get in
     match peerConnection st with
     | None => console_error "Peer connection not established" NoArg
     | Some pc =>
         do! (match RTCSessionDescription_check answer with
              | Some e => throw e
              | None => ret tt
              end) in
         do! setRemoteDescription pc answer in
         console_log "Remote description set successfully" NoArg
     end)
    (fun error =>
       do! console_error "Error handling remote answer:" (ArgErr error) in
       notify "onError" (VStr "Lỗi khi thiết lập kết nối")).

(** ** handleWebSocketMessage *)

Definition handleWebSocketMessage (data : JsVal) : M unit :=
  match data with
  | VUndefined | VNull =>
      throw (TypeError "Cannot destructure property 'action' of 'data'")
  | _ =>
      let action := get_prop data "action" in
      if is_str action "session_created" then
        do! modify (with_sessionId (get_prop data "session_id")) in
        notify "onSessionCreated" (get_prop data "session_id")
      else if is_str action "answer" then
        handleRemoteAnswer (get_prop data "answer")
      else if is_str action "transcript" then
        notify "onTranscript" (get_prop data "text")
      else if is_str action "translation" then
        notify "onTranslation" (get_prop data "text")
      else if is_str action "session_state" then
        if is_str (get_prop data "state") "closed"
        then notify "onCallEnded" VUndefined
        else ret tt
      else if is_str action "error" then
        notify "onError" (get_prop data "message")
      else
        console_log "Unhandled websocket message:" (ArgVal data)
  end.

(** The socket's [onmessage] handler installed by [connect]. *)
Definition onmessage (frame : string) : M unit :=
  match JSON_parse frame with
  | inl e => throw e
  | inr data => handleWebSocketMessage data
  end.

(** ** createSession

    Returns the promise it creates.  The executor runs synchronously. *)
Definition createSession : M nat :=
  let! p := new_promise in
  let! st := get in
  if negb (isConnected st) then
    do! reject p (Error "WebSocket chưa kết nối") in
    ret p
  else
    do! try_catch
          (do! ws_send (VObj [("action", VStr "create_session")]) in
           let! originalCallback := slot "onSessionCreated" in
           do! set_slot "onSessionCreated"
                 (Some (TempSessionHandler p originalCallback)) in
           setTimeout 10000 p originalCallback)
          (fun error =>
             do! console_error "Error creating session:" (ArgErr error) in
             reject p error) in
    ret p.

(** The callback [createSession] gave to [setTimeout]. *)
Definition fire (t : Timer) : M unit :=
  do! reject (timer_promise t) (Error "Tạo phiên hết thời gian chờ") in
  set_slot "onSessionCreated" (timer_original t).

Fixpoint fire_all (ts : list Timer) : M unit :=
  match ts with
  | [] => ret tt
  | t :: rest => do! fire t in fire_all rest
  end.

(** [d] milliseconds pass with no other event: the clock advances and the
    timers that have come due run, oldest first. *)
Definition elapse (d : Z) : M unit := fun st =>
  let t' := now st + Z.max 0 d in
  let ready := filter (fun t => due t <= t') (timers st) in
  let waiting := filter (fun t => ¬ (due t <= t')) (timers st) in
  fire_all ready (with_timers waiting (with_now t' st)).

(** ** setLanguages *)
Definition setLanguages (sourceLang targetLang : JsVal) : M unit :=
  let! st := get in
  if negb (truthy (sessionId st)) || negb (isConnected st) then
    console_error "Cannot set languages: No active session or connection" NoArg
  else
    ws_send (VObj [("action", VStr "set_languages");
                   ("session_id", sessionId st);
                   ("source_lang", sourceLang);
                   ("target_lang", targetLang)]).

(** ** endCall *)

(** [stream.getTracks().forEach(track => track.stop())] *)
Fixpoint stop_tracks (ts : list nat) : M unit :=
  match ts with
  | [] => ret tt
  | t :: rest => do! emit (TrackStop t) in stop_tracks rest
  end.

Definition endCall : M unit :=
  do! (let! st := get in
       match peerConnection st with
       | Some _ =>
           do! emit PcClose in
           modify (with_peerConnection None)
       | None => ret tt
       end) in
  do! (let! st := get in
       match localStream st with
       | Some stream =>
           do! stop_tracks (tracks stream) in
           modify (with_localStream None)
       | None => ret tt
       end) in
  do! (let! st := get in
       if truthy (sessionId st) && isConnected st then
         ws_send (VObj [("action", VStr "close_session");
                        ("session_id", sessionId st)])
       else ret tt) in
  do! modify (with_remoteStream None) in
  do! modify (with_sessionId VNull) in
  notify "onCallEnded" VUndefined.

(** ** on *)
Definition on (eventName : string) (callback : option Handler) : M unit :=
  let! st := get in
  if decide (is_Some (callbacks st !! eventName)) then
    set_slot eventName callback
  else
    console_error (String.append "Unknown event: " eventName) NoArg.

(** ** disconnect *)
Definition disconnect : M unit :=
  do! endCall in
  let! st := get in
  do! (match websocket st with
       | Some _ => if isConnected st then ws_close else ret tt
       | None => ret tt
       end) in
  do! modify (with_websocket None) in
  modify (with_isConnected false).

End Service.

(** ** A reference platform *)

(** *** JSON text, after RFC 8259

    A JavaScript string is represented by its UTF-8 bytes (a lone surrogate
    by the three bytes of its code unit). *)
Module Json.

(** The quotation mark. *)
Definition dquote : ascii := ascii_of_nat 34.

Definition is_ws (c : ascii) : bool :=
  let n := nat_of_ascii c in
  (n =? 32)%nat || (n =? 9)%nat || (n =? 10)%nat || (n =? 13)%nat.

Fixpoint skip_ws (s : string) : string :=
  match s with
  | String c rest => if is_ws c then skip_ws rest else s
  | EmptyString => s
  end.

Definition digit_val (c : ascii) : option Z :=
  let n := nat_of_ascii c in
  if (48 <=? n)%nat && (n <=? 57)%nat then Some (Z.of_nat n - 48) else None.

Definition hex_val (c : ascii) : option Z :=
  let n := nat_of_ascii c in
  if (48 <=? n)%nat && (n <=? 57)%nat then Some (Z.of_nat n - 48)
  else if (65 <=? n)%nat && (n <=? 70)%nat then Some (Z.of_nat n - 55)
  else if (97 <=? n)%nat && (n <=? 102)%nat then Some (Z.of_nat n - 87)
  else None.

(** The longest run of digits at the head of [s]: its value continuing
    [acc], how many there were, and what follows. *)
Fixpoint digits (acc : Z) (count : Z) (s : string) : Z * Z * string :=
  match s with
  | String c rest =>
      match digit_val c with
      | Some d => digits (acc * 10 + d) (count + 1) rest
      | None => (acc, count, s)
      end
  | EmptyString => (acc, count, s)
  end.

(** [int = zero / ( digit1-9 *DIGIT )] *)
Definition int_part (s : string) : option (Z * string) :=
  match s with
  | String "0" rest => Some (0, rest)
  | _ =>
      let '(v, n, rest) := digits 0 0 s in
      if n =? 0 then None else Some (v, rest)
  end.

(** [frac = decimal-point 1*DIGIT]: the mantissa extended by the digits and
    the number of digits read. *)
Definition frac_part (m : Z) (s : string) : option (Z * Z * string) :=
  match s with
  | String "." rest =>
      let '(v, n, rest') := digits m 0 rest in
      if n =? 0 then None else Some (v, n, rest')
  | _ => Some (m, 0, s)
  end.

(** [exp = e [ minus / plus ] 1*DIGIT] *)
Definition exp_part (s : string) : option (Z * string) :=
  match s with
  | String c rest =>
      if Ascii.eqb c "e" || Ascii.eqb c "E" then
        let '(sign, rest1) :=
          match rest with
          | String "-" r => (-1, r)
          | String "+" r => (1, r)
          | _ => (1, rest)
          end in
        let '(v, n, rest2) := digits 0 0 rest1 in
        if n =? 0 then None else Some (sign * v, rest2)
      else Some (0, s)
  | EmptyString => Some (0, s)
  end.

Definition number (s : string) : option (JsVal * string) :=
  let '(sign, s1) :=
    match s with
    | String "-" r => (-1, r)
    | _ => (1, s)
    end in
  match int_part s1 with
  | None => None
  | Some (i, s2) =>
      match frac_part i s2 with
      | None => None
      | Some (m, nfrac, s3) =>
          match exp_part s3 with
          | None => None
          | Some (e, s4) => Some (VNum (sign * m) (e - nfrac), s4)
          end
      end
  end.

Definition byte (n : Z) : ascii := ascii_of_nat (Z.to_nat n).

(** The UTF-8 bytes of a code point (or of a lone surrogate code unit). *)
Definition utf8 (cp : Z) : string :=
  if cp <? 128 then String (byte cp) EmptyString
  else if cp <? 2048 then
    String (byte (192 + cp / 64)) (String (byte (128 + cp mod 64)) EmptyString)
  else if cp <? 65536 then
    String (byte (224 + cp / 4096))
      (String (byte (128 + (cp / 64) mod 64))
        (String (byte (128 + cp mod 64)) EmptyString))
  else
    String (byte (240 + cp / 262144))
      (String (byte (128 + (cp / 4096) mod 64))
        (String (byte (128 + (cp / 64) mod 64))
          (String (byte (128 + cp mod 64)) EmptyString))).

(** Four hexadecimal digits. *)
Definition hex4 (s : string) : option (Z * string) :=
  match s with
  | String a (String b (String c (String d rest))) =>
      match hex_val a, hex_val b, hex_val c, hex_val d with
      | Some x, Some y, Some z, Some w =>
          Some (((x * 16 + y) * 16 + z) * 16 + w, rest)
      | _, _, _, _ => None
      end
  | _ => None
  end.

(** What follows a [\u]: one code unit, or a surrogate pair joined. *)
Definition unicode_escape (s : string) : option (string * string) :=
  match hex4 s with
  | None => None
  | Some (hi, rest) =>
      if (55296 <=? hi) && (hi <? 56320) then
        match rest with
        | String "\" (String "u" rest1) =>
            match hex4 rest1 with
            | Some (lo, rest2) =>
                if (56320 <=? lo) && (lo <? 57344)
                then Some (utf8 (65536 + (hi - 55296) * 1024 + (lo - 56320)), rest2)
                else Some (utf8 hi, rest)
            | None => Some (utf8 hi, rest)
            end
        | _ => Some (utf8 hi, rest)
        end
      else Some (utf8 hi, rest)
  end.

(** The characters of a string after its opening quote, up to and including
    the closing one.  [fuel] bounds the number of characters. *)
Fixpoint string_body (fuel : nat) (s : string) : option (string * string) :=
  match fuel with
  | O => None
  | S fuel' =>
      match s with
      | EmptyString => None
      | String c rest =>
          if Ascii.eqb c dquote then Some (EmptyString, rest)
          else if Ascii.eqb c "\" then
            match rest with
            | String e rest1 =>
                let simple (ch : Z) :=
                  match string_body fuel' rest1 with
                  | Some (tl, r) => Some (String (byte ch) tl, r)
                  | None => None
                  end in
                if Ascii.eqb e dquote then simple 34
                else if Ascii.eqb e "\" then simple 92
                else if Ascii.eqb e "/" then simple 47
                else if Ascii.eqb e "b" then simple 8
                else if Ascii.eqb e "f" then simple 12
                else if Ascii.eqb e "n" then simple 10
                else if Ascii.eqb e "r" then simple 13
                else if Ascii.eqb e "t" then simple 9
                else if Ascii.eqb e "u" then
                  match unicode_escape rest1 with
                  | Some (bytes, rest2) =>
                      match string_body fuel' rest2 with
                      | Some (tl, r) => Some (String.append bytes tl, r)
                      | None => None
                      end
                  | None => None
                  end
                else None
            | EmptyString => None
            end
          else if (nat_of_ascii c <? 32)%nat then None
          else
            match string_body fuel' rest with
            | Some (tl, r) => Some (String c tl, r)
            | None => None
            end
      end
  end.

Definition literal (word : string) (v : JsVal) (s : string) : option (JsVal * string) :=
  if String.prefix word s
  then Some (v, String.substring (String.length word)
                  (String.length s - String.length word) s)
  else None.

(** A value, then the rest of an array after its first [[], then the rest
    of an object after its first [{].  [fuel] bounds the nesting and the
    number of elements together. *)
Fixpoint value (fuel : nat) (s : string) : option (JsVal * string) :=
  match fuel with
  | O => None
  | S fuel' =>
      let elements :=
        fix elements (n : nat) (acc : list JsVal) (s : string)
          : option (JsVal * string) :=
          match n with
          | O => None
          | S n' =>
              match value fuel' s with
              | None => None
              | Some (v, rest) =>
                  match skip_ws rest with
                  | String "," rest1 => elements n' (acc ++ [v]) rest1
                  | String "]" rest1 => Some (VArr (acc ++ [v]), rest1)
                  | _ => None
                  end
              end
          end in
      let members :=
        fix members (n : nat) (acc : list (string * JsVal)) (s : string)
          : option (JsVal * string) :=
          match n with
          | O => None
          | S n' =>
              match skip_ws s with
              | String q rest =>
                  if negb (Ascii.eqb q dquote) then None else
                  match string_body (String.length rest) rest with
                  | None => None
                  | Some (k, rest1) =>
                      match skip_ws rest1 with
                      | String ":" rest2 =>
                          match value fuel' rest2 with
                          | None => None
                          | Some (v, rest3) =>
                              match skip_ws rest3 with
                              | String "," rest4 => members n' (acc ++ [(k, v)]) rest4
                              | String "}" rest4 => Some (VObj (acc ++ [(k, v)]), rest4)
                              | _ => None
                              end
                          end
                      | _ => None
                      end
                  end
              | _ => None
              end
          end in
      match skip_ws s with
      | EmptyString => None
      | String c rest =>
          if Ascii.eqb c "{" then
            match skip_ws rest with
            | String "}" rest1 => Some (VObj [], rest1)
            | _ => members (String.length rest) [] rest
            end
          else if Ascii.eqb c "[" then
            match skip_ws rest with
            | String "]" rest1 => Some (VArr [], rest1)
            | _ => elements (String.length rest) [] rest
            end
          else if Ascii.eqb c dquote then
            match string_body (String.length rest) rest with
            | Some (str, rest1) => Some (VStr str, rest1)
            | None => None
            end
          else if Ascii.eqb c "t" then literal "true" (VBool true) (String c rest)
          else if Ascii.eqb c "f" then literal "false" (VBool false) (String c rest)
          else if Ascii.eqb c "n" then literal "null" VNull (String c rest)
          else number (String c rest)
      end
  end.

(** [JSON.parse(text)]: one value with nothing but white space around it,
    or a SyntaxError. *)
Definition parse (text : string) : JsError + JsVal :=
  match value (S (String.length text)) text with
  | Some (v, rest) =>
      match skip_ws rest with
      | EmptyString => inr v
      | _ => inl (SyntaxError "Unexpected non-whitespace character after JSON")
      end
  | None => inl (SyntaxError "Unexpected token or end of JSON input")
  end.

End Json.

(** *** The peer connection's signalling table *)

(** [new RTCSessionDescription(init)]: the [type] member is required and
    must be one of the four description types. *)
Definition browser_description_check (init : JsVal) : option JsError :=
  let ty := get_prop init "type" in
  if is_str ty "offer" || is_str ty "pranswer" || is_str ty "answer"
     || is_str ty "rollback"
  then None
  else Some (TypeError "Failed to construct 'RTCSessionDescription'").

(** [pc.setRemoteDescription(desc)] by description type and signalling
    state; every SDP body is taken as acceptable. *)
Definition browser_setRemoteDescription (pc : PeerConnection) (desc : JsVal)
  : JsError + PeerConnection :=
  let ty := get_prop desc "type" in
  let wrong := inl (InvalidStateError "Called in wrong state") in
  match signalingState pc with
  | SigClosed => inl (InvalidStateError "The RTCPeerConnection's signalingState is 'closed'")
  | sig =>
      if is_str ty "offer" then
        match sig with
        | Stable | HaveRemoteOffer | HaveLocalOffer =>
            inr {| signalingState := HaveRemoteOffer;
                   currentRemoteDescription := currentRemoteDescription pc;
                   pendingRemoteDescription := Some desc |}
        | _ => wrong
        end
      else if is_str ty "answer" then
        match sig with
        | HaveLocalOffer | HaveRemotePranswer =>
            inr {| signalingState := Stable;
                   currentRemoteDescription := Some desc;
                   pendingRemoteDescription := None |}
        | _ => wrong
        end
      else if is_str ty "pranswer" then
        match sig with
        | HaveLocalOffer | HaveRemotePranswer =>
            inr {| signalingState := HaveRemotePranswer;
                   currentRemoteDescription := currentRemoteDescription pc;
                   pendingRemoteDescription := Some desc |}
        | _ => wrong
        end
      else if is_str ty "rollback" then
        match sig with
        | HaveLocalOffer | HaveRemoteOffer =>
            inr {| signalingState := Stable;
                   currentRemoteDescription := currentRemoteDescription pc;
                   pendingRemoteDescription := None |}
        | _ => wrong
        end
      else inl (TypeError "The provided value is not a valid RTCSdpType")
  end.

Definition browser : Platform := {|
  JSON_parse := Json.parse;
  RTCSessionDescription_check := browser_description_check;
  pc_setRemoteDescription := browser_setRemoteDescription
|}.

(** Frames are written below with apostrophes standing for quotation
    marks. *)
Fixpoint frame_text (s : string) : string :=
  match s with
  | EmptyString => EmptyString
  | String c rest =>
      String (if Ascii.eqb c "'" then Json.dquote else c) (frame_text rest)
  end.

(** * Observations, intermediate states and scenarios *)

(** ** Reading the trace *)

(** The tracks stopped, in order. *)
Fixpoint stops (tr : list Effect) : list nat :=
  match tr with
  | [] => []
  | TrackStop t :: rest => t :: stops rest
  | _ :: rest => stops rest
  end.

(** The payloads of the frames put on the wire, in order. *)
Fixpoint sent_frames (tr : list Effect) : list JsVal :=
  match tr with
  | [] => []
  | WsSend payload :: rest => payload :: sent_frames rest
  | _ :: rest => sent_frames rest
  end.

Definition is_notify (e : Effect) : bool :=
  match e with Notify _ _ => true | _ => false end.

(** Effects that only report: a call into the platform's
    [setRemoteDescription], a console line, a UI notification.  Everything
    else releases or sends something. *)
Definition is_report (e : Effect) : bool :=
  match e with
  | PcSetRemoteDescription _ | ConsoleLog _ _ | ConsoleError _ _ | Notify _ _ => true
  | WsSend _ | WsClose | PcClose | TrackStop _ => false
  end.

(** ** Messages and constants of the source *)

Definition create_session_message : JsVal :=
  VObj [("action", VStr "create_session")].

Definition set_languages_message (sid sourceLang targetLang : JsVal) : JsVal :=
  VObj [("action", VStr "set_languages"); ("session_id", sid);
        ("source_lang", sourceLang); ("target_lang", targetLang)].

Definition close_session_message (sid : JsVal) : JsVal :=
  VObj [("action", VStr "close_session"); ("session_id", sid)].

(** The error the creation timer rejects with, and the message the error
    slot gets when an answer cannot be applied. *)
Definition timeout_error : JsError := Error "Tạo phiên hết thời gian chờ".

Definition negotiation_error_message : JsVal := VStr "Lỗi khi thiết lập kết nối".

(** ** The callback table *)

(** The seven slot names the constructor installs. *)
Definition event_names : gset string :=
  {[ "onConnectionStateChange"; "onTranscript"; "onTranslation"; "onError";
     "onSessionCreated"; "onCallEstablished"; "onCallEnded" ]}.

(** The table holds exactly the seven slots, and a computation that keeps
    it so, whether it returns or throws. *)
Definition table_ok (st : State) : Prop := dom (callbacks st) = event_names.

Definition keeps_table {A} (c : M A) : Prop :=
  forall st, table_ok st -> table_ok (final (c st)).

(** The calls the UI and the event loop make on the service. *)
Inductive Event : Type :=
  | EvOn (eventName : string) (callback : option Handler)
  | EvCreateSession
  | EvElapse (d : Z)
  | EvMessage (frame : string)
  | EvSetLanguages (sourceLang targetLang : JsVal)
  | EvEndCall
  | EvDisconnect.

(** The state after one call, whether it returned or threw. *)
Definition run `{platform : Platform} (ev : Event) (st : State) : State :=
  match ev with
  | EvOn eventName callback => final (on eventName callback st)
  | EvCreateSession => final (createSession st)
  | EvElapse d => final (elapse d st)
  | EvMessage frame => final (onmessage frame st)
  | EvSetLanguages sourceLang targetLang =>
      final (setLanguages sourceLang targetLang st)
  | EvEndCall => final (endCall st)
  | EvDisconnect => final (disconnect st)
  end.

(** [handler_step st st']: [st'] differs from [st] at most in the callback
    table, in promises that were still pending, and by notifications added
    to the trace.  This is all that running a callback can do. *)
Record handler_step (st st' : State) : Prop := {
  hs_websocket : websocket st' = websocket st;
  hs_peerConnection : peerConnection st' = peerConnection st;
  hs_localStream : localStream st' = localStream st;
  hs_remoteStream : remoteStream st' = remoteStream st;
  hs_sessionId : sessionId st' = sessionId st;
  hs_isConnected : isConnected st' = isConnected st;
  hs_timers : timers st' = timers st;
  hs_now : now st' = now st;
  hs_trace : exists added,
      trace st' = trace st ++ added /\ forallb is_notify added = true;
  hs_settled : forall p s,
      promises st !! p = Some s -> s <> Pending -> promises st' !! p = Some s
}.

(** ** States along [endCall] *)

(** The tracks of the local stream the service holds. *)
Definition held_tracks (st : State) : list nat :=
  match localStream st with
  | Some stream => tracks stream
  | None => []
  end.

(** What [endCall] does to the peer connection and the local media. *)
Definition release_effects (st : State) : list Effect :=
  match peerConnection st with Some _ => [PcClose] | None => [] end
  ++ map TrackStop (held_tracks st).

Definition released (st : State) : State :=
  with_localStream None
    (with_peerConnection None
       (with_trace (trace st ++ release_effects st) st)).

Definition socket_open (st : State) : bool :=
  match websocket st with
  | Some ws => match readyState ws with OPEN => true | _ => false end
  | None => false
  end.

(** What the guarded [send] in [endCall] comes to: an exception, or the
    frames that reach the wire. *)
Definition close_outcome (st : State) : JsError + list Effect :=
  if truthy (sessionId st) && isConnected st then
    match websocket st with
    | None => inl (TypeError "Cannot read properties of null (reading 'send')")
    | Some ws =>
        match readyState ws with
        | CONNECTING => inl (InvalidStateError "Still in CONNECTING state.")
        | OPEN => inr [WsSend (close_session_message (sessionId st))]
        | CLOSING | CLOSED => inr []
        end
    end
  else inr [].

(** The state just before [endCall] invokes the call-ended callback. *)
Definition cleared (st : State) (sent : list Effect) : State :=
  with_sessionId VNull
    (with_remoteStream None
       (with_trace (trace (released st) ++ sent) (released st))).

(** ** States along [createSession] *)

(** The state [createSession] leaves behind when the frame went out. *)
Definition session_requested (st : State) : State :=
  let p := length (promises st) in
  let originalCallback := slot_of st "onSessionCreated" in
  with_timers
    (timers st ++ [{| due := now st + 10000;
                      timer_promise := p;
                      timer_original := originalCallback |}])
    (with_callbacks
       (<["onSessionCreated" := Some (TempSessionHandler p originalCallback)]>
          (callbacks st))
       (with_trace (trace st ++ [WsSend create_session_message])
          (with_promises (promises st ++ [Pending]) st))).

(** A promise that is pending or has been rejected by a creation timer. *)
Definition pending_or_timed_out (st : State) (p : nat) : Prop :=
  promises st !! p = Some Pending \/
  promises st !! p = Some (Rejected timeout_error).

(** ** States along [handleRemoteAnswer] *)

(** The state in which the [catch] block calls the error callback;
    [issued] is what the [try] block had done by then. *)
Definition answer_failed (st : State) (issued : list Effect) (e : JsError) : State :=
  with_trace
    (trace st ++ issued ++ [ConsoleError "Error handling remote answer:" (ArgErr e)])
    st.

Definition answer_applied (st : State) (pc' : PeerConnection) (answer : JsVal) : State :=
  with_trace
    (trace st ++ [PcSetRemoteDescription answer;
                  ConsoleLog "Remote description set successfully" NoArg])
    (with_peerConnection (Some pc') st).


(** ** Scenarios *)

(** A service with an open socket and the flag up. *)
Definition connected : State :=
  with_isConnected true
    (with_websocket (Some {| url := "ws://localhost:5000/ws"; readyState := OPEN |})
       constructor).

(** The same, with a UI handler on the session-created slot. *)
Definition listening : State :=
  final (on "onSessionCreated" (Some (UserFn 5)) connected).

Definition after_first_request : State := final (createSession connected).

Definition session_created_s1 : JsVal :=
  VObj [("action", VStr "session_created"); ("session_id", VStr "s1")].

(** [connected], once the server has assigned session [s1]. *)
Definition in_session : State := with_sessionId (VStr "s1") connected.

(** A call in progress on session [s1]: a peer connection waiting for the
    answer, a local stream of two tracks, and UI handlers for the
    call-ended and error events. *)
Definition in_call : State :=
  final (on "onError" (Some (UserFn 4))
    (final (on "onCallEnded" (Some (UserFn 7))
      (with_localStream (Some {| tracks := [1%nat; 2%nat] |})
        (with_peerConnection
           (Some {| signalingState := HaveLocalOffer;
                    currentRemoteDescription := None;
                    pendingRemoteDescription := None |})
           in_session))))).

Definition after_first_endCall : State := final (endCall in_call).


Definition final_answer : JsVal :=
  VObj [("type", VStr "answer"); ("sdp", VStr "v=0 final")].




(** * connect and the socket's handlers *)

(** ** connect

    [new WebSocket(url)] is the platform's: [WebSocket_check] gives the
    error it throws for a URL it refuses.  The four handlers [connect]
    assigns to the socket are embedded one by one; [onopen] and [onerror]
    close over the promise of the [connect] call they belong to.  The
    [onerror] handler rejects with the event object it is given, which the
    error type here cannot hold, and is not embedded. *)
Section Connect.
Variable WebSocket_check : string -> option JsError.

Definition connect (url : string) : M nat :=
  let! p := new_promise in
  do! try_catch
        (match WebSocket_check url with
         | Some e => throw e
         | None =>
             modify (with_websocket
                       (Some {| url := url; readyState := CONNECTING |}))
         end)
        (fun error =>
           do! console_error "Failed to create WebSocket:" (ArgErr error) in
           do! notify "onError" (VStr "Không thể kết nối đến máy chủ") in
           reject p error) in
  ret p.

End Connect.

(** The socket's [onopen] handler, for the [connect] call with promise [p]. *)
Definition onopen (p : nat) : M unit :=
  do! console_log "WebSocket connected" NoArg in
  do! modify (with_isConnected true) in
  do! notify "onConnectionStateChange" (VBool true) in
  resolve p VUndefined.

(** The socket's [onclose] handler. *)
Definition onclose : M unit :=
  do! console_log "WebSocket disconnected" NoArg in
  do! modify (with_isConnected false) in
  notify "onConnectionStateChange" (VBool false).

(** The platform moves the socket the service holds to another ready
    state. *)
Definition socket_becomes (rs : ReadyState) : M unit :=
  modify (fun st =>
    match websocket st with
    | Some ws => with_websocket (Some {| url := url ws; readyState := rs |}) st
    | None => st
    end).

(** A reference [WebSocket] constructor: a [ws:] or [wss:] URL with no
    fragment is accepted, anything else is a SyntaxError. *)
Fixpoint has_fragment (s : string) : bool :=
  match s with
  | EmptyString => false
  | String c rest => Ascii.eqb c "#" || has_fragment rest
  end.

Definition browser_socket_check (url : string) : option JsError :=
  if (String.prefix "ws://" url || String.prefix "wss://" url)
     && negb (has_fragment url)
  then None
  else Some (SyntaxError "Failed to construct 'WebSocket': The URL is invalid.").

(** ** More observations and scenarios *)

(** The session-created slot after requests [ps] were made one after the
    other, the latest first, over the callback [orig]. *)
Fixpoint wrapped (ps : list nat) (orig : option Handler) : option Handler :=
  match ps with
  | [] => orig
  | p :: rest => Some (TempSessionHandler p (wrapped rest orig))
  end.

(** [n] calls of [createSession] in a row. *)
Fixpoint requests (n : nat) (st : State) : State :=
  match n with
  | O => st
  | S n' => final (createSession (requests n' st))
  end.

(** The table [m'] is [m], up to the session-created slot. *)
Definition only_slot_changed (m m' : gmap string (option Handler)) : Prop :=
  m' = m \/ exists x, m' = <["onSessionCreated" := x]> m.

(** The messages the dispatcher hands to a slot as they are: the action,
    the slot it goes to and the property passed on. *)
Definition routes : list (string * string * string) :=
  [("transcript", "onTranscript", "text");
   ("translation", "onTranslation", "text");
   ("error", "onError", "message")].

(** How many times the socket was asked to close. *)
Fixpoint closes (tr : list Effect) : nat :=
  match tr with
  | [] => O
  | WsClose :: rest => S (closes rest)
  | _ :: rest => closes rest
  end.

(** [report_step st st']: the channel, the media handles and the timers
    are as before, and the trace has grown by reports only. *)
Record report_step (st st' : State) : Prop := {
  rs_websocket : websocket st' = websocket st;
  rs_isConnected : isConnected st' = isConnected st;
  rs_localStream : localStream st' = localStream st;
  rs_remoteStream : remoteStream st' = remoteStream st;
  rs_timers : timers st' = timers st;
  rs_trace : exists added,
      trace st' = trace st ++ added /\ forallb is_report added = true
}.

(** Whether the guard of [ws_send] lets a frame through to the wire. *)
Definition channel_open (st : State) : bool :=
  isConnected st && socket_open st.

(** A service whose socket was dropped by [disconnect] before it opened
    and has opened since, and which was then given a session id by that
    socket. *)
Definition stale_session : State :=
  let p := length (promises constructor) in
  let st1 := final (connect browser_socket_check "ws://localhost:5000/ws" constructor) in
  let st2 := final (disconnect st1) in
  let st3 := final (onopen p st2) in
  final (onmessage (platform := browser)
           (frame_text "{'action':'session_created','session_id':'s1'}") st3).

(** ** A stale connected flag *)

(** The service after [connect] and the opening of its socket. *)
Definition opened : State :=
  final (onopen 0
    (final (socket_becomes OPEN
      (final (connect browser_socket_check "ws://localhost:5000/ws" constructor))))).

(** [connect] is called again while connected: the flag is still up, over
    a socket that is connecting. *)
Definition reconnecting : State :=
  final (connect browser_socket_check "ws://localhost:5000/ws" opened).

(** The closing handshake has begun on the socket and its close event has
    not fired yet: the flag is still up, over a socket that is closing. *)
Definition closing : State := final (socket_becomes CLOSING opened).

(** The call [in_call] with a remote stream attached, and [connect] called
    again during it. *)
Definition reconnecting_call : State :=
  final (connect browser_socket_check "ws://localhost:5000/ws"
           (with_remoteStream (Some {| tracks := [3%nat; 4%nat] |}) in_call)).

(** ** Everything that can happen to the service *)

(** A call of the UI or the event loop, [connect], the platform moving the
    held socket to another ready state, or one of the socket's [onopen]
    and [onclose] handlers. *)
Inductive Activity : Type :=
  | ActCall (ev : Event)
  | ActConnect (url : string)
  | ActSocket (rs : ReadyState)
  | ActOpen (p : nat)
  | ActClose.

Definition perform `{platform : Platform}
    (WebSocket_check : string -> option JsError)
    (a : Activity) (st : State) : State :=
  match a with
  | ActCall ev => run ev st
  | ActConnect url => final (connect WebSocket_check url st)
  | ActSocket rs => final (socket_becomes rs st)
  | ActOpen p => final (onopen p st)
  | ActClose => final (onclose st)
  end.

(** A session: the socket is opened, two requests are made and left
    unanswered, and their timers fire. *)
Definition unanswered_requests : list Activity :=
  [ActConnect "ws://localhost:5000/ws"; ActSocket OPEN; ActOpen 0;
   ActCall EvCreateSession; ActCall EvCreateSession;
   ActCall (EvElapse 10000)].

(** * Properties *)

(** ** Generic facts about computations *)

Lemma final_bind {A B} (c : M A) (k : A -> M B) (st : State) :
  final (bind c k st) =
  match c st with
  | Returned a st' => final (k a st')
  | Thrown _ st' => st'
  end.
Proof. unfold bind. destruct (c st); reflexivity. Qed.

(** A promise created at the end of the list and settled at once. *)
Lemma settle_fresh (l : list PromiseState) (s : PromiseState) :
  (l ++ [Pending]) !! length l = Some Pending /\
  <[length l := s]> (l ++ [Pending]) = l ++ [s].
Proof.
  split.
  - rewrite lookup_app_r by lia. by rewrite Nat.sub_diag.
  - rewrite insert_app_r_alt by lia. by rewrite Nat.sub_diag.
Qed.

(** ** createSession with the connected flag down *)

(** X16.  Whenever the connected flag is down, [createSession] returns a
    promise already rejected with [Error('WebSocket chưa kết nối')] (the
    not-connected error) and changes nothing else: no frame is sent, no
    callback is wrapped, no timer is armed. *)
Theorem createSession_not_connected (st : State) :
  isConnected st = false ->
  let p := length (promises st) in
  let st' := with_promises
               (promises st ++ [Rejected (Error "WebSocket chưa kết nối")]) st in
  createSession st = Returned p st' /\
  promise_of st' p = Some (Rejected (Error "WebSocket chưa kết nối")) /\
  trace st' = trace st.
Proof.
  intros Hflag p st'. split; [| split].
  - unfold createSession, bind, new_promise, get. cbn.
    rewrite Hflag. cbn.
    destruct (settle_fresh (promises st)
                (Rejected (Error "WebSocket chưa kết nối"))) as [Hl Hi].
    rewrite Hl, Hi. reflexivity.
  - unfold promise_of, st', p. cbn.
    rewrite lookup_app_r by lia. by rewrite Nat.sub_diag.
  - reflexivity.
Qed.

Lemma createSession_not_connected_witness :
  createSession constructor =
    Returned 0%nat
      (with_promises [Rejected (Error "WebSocket chưa kết nối")] constructor).
Proof.
  exact (proj1 (createSession_not_connected constructor eq_refl)).
Defined.

(** ** Callback registration (C10) *)

Lemma constructor_slots : table_ok constructor.
Proof.
  unfold table_ok, constructor, event_names. cbn [callbacks].
  rewrite !dom_insert_L, dom_empty_L. set_solver.
Qed.

Lemma known_event_slot (st : State) (name : string) :
  table_ok st ->
  name ∈ event_names <-> is_Some (callbacks st !! name).
Proof. intros Hdom. rewrite <- Hdom. apply elem_of_dom. Qed.

(** C10.  On a table holding the seven slots, [on] with a known name
    replaces that slot and leaves every other slot, and everything else in
    the service, as it was; with any other name the whole table is kept and
    the only effect is one console error line. *)
Theorem on_replaces_one_slot (st : State) (eventName : string)
    (callback : option Handler) :
  table_ok st ->
  (eventName ∈ event_names ->
     let st' := with_callbacks (<[eventName := callback]> (callbacks st)) st in
     on eventName callback st = Returned tt st' /\
     callbacks st' !! eventName = Some callback /\
     (forall other, other <> eventName ->
        callbacks st' !! other = callbacks st !! other) /\
     table_ok st') /\
  (eventName ∉ event_names ->
     let st' := with_trace
                  (trace st ++
                     [ConsoleError (String.append "Unknown event: " eventName) NoArg])
                  st in
     on eventName callback st = Returned tt st' /\
     callbacks st' = callbacks st).
Proof.
  intros Hdom. split.
  - intros Hin st'.
    assert (Hsome : is_Some (callbacks st !! eventName))
      by (by apply known_event_slot).
    repeat split.
    + unfold on, bind, get. cbn. by rewrite decide_True.
    + apply lookup_insert_eq.
    + intros other Hne. cbn. by rewrite lookup_insert_ne.
    + unfold table_ok in *. cbn. rewrite dom_insert_L, Hdom. set_solver.
  - intros Hnot st'.
    assert (Hnone : ¬ is_Some (callbacks st !! eventName))
      by (by rewrite <- known_event_slot).
    split; [| reflexivity].
    unfold on, bind, get. cbn. by rewrite decide_False.
Qed.

Lemma on_replaces_one_slot_witness :
  on "onError" (Some (UserFn 1)) constructor =
    Returned tt
      (with_callbacks (<["onError" := Some (UserFn 1)]> (callbacks constructor))
         constructor) /\
  on "onHangup" (Some (UserFn 1)) constructor =
    Returned tt
      (with_trace [ConsoleError "Unknown event: onHangup" NoArg] constructor).
Proof.
  destruct (on_replaces_one_slot constructor "onError" (Some (UserFn 1))
              constructor_slots) as [Hknown _].
  destruct (on_replaces_one_slot constructor "onHangup" (Some (UserFn 1))
              constructor_slots) as [_ Hunknown].
  split.
  - apply Hknown. unfold event_names. set_solver.
  - apply Hunknown. unfold event_names. set_solver.
Defined.

(** ** setLanguages (C5) *)

(** C5, as the code has it.  Without a session id or with the connected
    flag down, [setLanguages] writes one console error line, sends nothing
    and returns normally: the caller is given no error.  With a session id,
    the flag up and the socket open, each call puts exactly one
    [set_languages] frame on the wire, carrying the session id and the two
    languages passed, and changes nothing else. *)
Theorem setLanguages_guard (st : State) (sourceLang targetLang : JsVal) :
  (truthy (sessionId st) = false \/ isConnected st = false ->
     setLanguages sourceLang targetLang st =
       Returned tt
         (with_trace
            (trace st ++
               [ConsoleError "Cannot set languages: No active session or connection"
                  NoArg]) st)) /\
  (forall ws,
     truthy (sessionId st) = true -> isConnected st = true ->
     websocket st = Some ws -> readyState ws = OPEN ->
     setLanguages sourceLang targetLang st =
       Returned tt
         (with_trace
            (trace st ++
               [WsSend (set_languages_message (sessionId st) sourceLang targetLang)])
            st)).
Proof.
  split.
  - intros Hno. unfold setLanguages, bind, get. cbn.
    destruct Hno as [-> | ->]; cbn; [reflexivity |].
    rewrite orb_true_r. reflexivity.
  - intros ws Hsid Hflag Hws Hopen.
    unfold setLanguages, bind, get. cbn.
    rewrite Hsid, Hflag. cbn. unfold ws_send.
    rewrite Hws, Hopen. reflexivity.
Qed.

Lemma setLanguages_guard_witness :
  setLanguages (VStr "vi") (VStr "en") constructor =
    Returned tt
      (with_trace
         [ConsoleError "Cannot set languages: No active session or connection" NoArg]
         constructor) /\
  setLanguages (VStr "vi") (VStr "en") in_session =
    Returned tt
      (with_trace
         [WsSend (set_languages_message (VStr "s1") (VStr "vi") (VStr "en"))]
         in_session).
Proof.
  split.
  - apply (proj1 (setLanguages_guard constructor (VStr "vi") (VStr "en"))).
    left. reflexivity.
  - apply (proj2 (setLanguages_guard in_session (VStr "vi") (VStr "en"))
             {| url := "ws://localhost:5000/ws"; readyState := OPEN |});
      reflexivity.
Defined.

(** C5 as claimed fails: before any session exists the call does not fail,
    it returns normally after logging. *)
Lemma setLanguages_no_session_returns :
  sessionId constructor = VNull /\
  returns (setLanguages (VStr "vi") (VStr "en") constructor) = true /\
  trace (final (setLanguages (VStr "vi") (VStr "en") constructor)) =
    [ConsoleError "Cannot set languages: No active session or connection" NoArg].
Proof. repeat split. Qed.

(** ** What running a callback can do *)

Lemma handler_step_refl (st : State) : handler_step st st.
Proof.
  split; try reflexivity; [| auto].
  exists []. by rewrite app_nil_r.
Qed.

Lemma handler_step_trans (st1 st2 st3 : State) :
  handler_step st1 st2 -> handler_step st2 st3 -> handler_step st1 st3.
Proof.
  intros [] []. split; try congruence; [| auto].
  destruct hs_trace0 as (a1 & Ha1 & Hn1), hs_trace1 as (a2 & Ha2 & Hn2).
  exists (a1 ++ a2). split.
  - by rewrite Ha2, Ha1, app_assoc.
  - rewrite forallb_app, Hn1, Hn2. reflexivity.
Qed.

Lemma settle_step (p : nat) (s : PromiseState) (st : State) :
  exists st', settle p s st = Returned tt st' /\ handler_step st st'.
Proof.
  unfold settle, modify. eexists. split; [reflexivity |].
  destruct (promises st !! p) as [[| v | e] |] eqn:Hp;
    try apply handler_step_refl.
  split; try reflexivity.
  - exists []. by rewrite app_nil_r.
  - intros q s' Hq Hs'. cbn.
    destruct (decide (p = q)) as [-> | Hne].
    + congruence.
    + by rewrite list_lookup_insert_ne.
Qed.

Lemma set_slot_step (name : string) (h : option Handler) (st : State) :
  exists st', set_slot name h st = Returned tt st' /\ handler_step st st'.
Proof.
  unfold set_slot, modify. eexists. split; [reflexivity |].
  split; try reflexivity; [| auto].
  exists []. by rewrite app_nil_r.
Qed.

Lemma notify_effect_step (id : nat) (arg : JsVal) (st : State) :
  exists st', emit (Notify id arg) st = Returned tt st' /\ handler_step st st'.
Proof.
  unfold emit, modify. eexists. split; [reflexivity |].
  split; try reflexivity; [| auto].
  by exists [Notify id arg].
Qed.

(** Every callback returns, and its run is a [handler_step]. *)
Lemma call_step (h : Handler) :
  forall (arg : JsVal) (st : State),
  exists st', call h arg st = Returned tt st' /\ handler_step st st'.
Proof.
  revert h. fix IH 1. intros h arg st.
  destruct h as [id | p orig | orig].
  - apply notify_effect_step.
  - cbn [call]. unfold bind, resolve.
    destruct (settle_step p (Resolved arg) st) as (st1 & -> & H1).
    unfold slot.
    destruct (set_slot_step "onSessionCreated"
                (Some (Forwarder (slot_of st1 "onSessionCreated"))) st1)
      as (st2 & -> & H2).
    destruct orig as [o |].
    + destruct (IH o arg st2) as (st3 & -> & H3).
      exists st3. split; [reflexivity |].
      eauto using handler_step_trans.
    + exists st2. split; [reflexivity |].
      eauto using handler_step_trans.
  - cbn [call]. destruct orig as [o |].
    + apply IH.
    + exists st. split; [reflexivity | apply handler_step_refl].
Qed.

Lemma notify_step (name : string) (arg : JsVal) (st : State) :
  exists st', notify name arg st = Returned tt st' /\ handler_step st st'.
Proof.
  unfold notify, bind, slot.
  destruct (slot_of st name) as [h |].
  - apply call_step.
  - exists st. split; [reflexivity | apply handler_step_refl].
Qed.

(** With a UI handler registered, a notification is one more trace entry. *)
Lemma notify_user (name : string) (id : nat) (arg : JsVal) (st : State) :
  slot_of st name = Some (UserFn id) ->
  notify name arg st = Returned tt (with_trace (trace st ++ [Notify id arg]) st).
Proof. intros Hslot. unfold notify, bind, slot. by rewrite Hslot. Qed.

Lemma notify_none (name : string) (arg : JsVal) (st : State) :
  slot_of st name = None -> notify name arg st = Returned tt st.
Proof. intros Hslot. unfold notify, bind, slot. by rewrite Hslot. Qed.

(** ** Teardown *)

Lemma stop_tracks_run (ts : list nat) (st : State) :
  stop_tracks ts st = Returned tt (with_trace (trace st ++ map TrackStop ts) st).
Proof.
  revert st. induction ts as [| t ts IH]; intros st.
  - cbn. rewrite app_nil_r. by destruct st.
  - cbn [stop_tracks map]. unfold bind, emit, modify. rewrite IH. cbn.
    by rewrite <- app_assoc.
Qed.

(** [endCall], step by step. *)
Lemma endCall_run (st : State) :
  endCall st =
  match close_outcome st with
  | inl e => Thrown e (released st)
  | inr sent => notify "onCallEnded" VUndefined (cleared st sent)
  end.
Proof.
  unfold endCall, close_outcome, cleared, released, release_effects,
    held_tracks.
  destruct st as [ws pc ls rs sid flag cbs ps ts nw tr].
  unfold bind, get. cbn.
  destruct pc as [pc |], ls as [stream |]; cbn;
    rewrite ?stop_tracks_run; cbn;
    destruct (truthy sid && flag); cbn;
    unfold ws_send; cbn;
    try destruct ws as [[u []] |]; cbn;
    rewrite ?app_nil_r, <- ?app_assoc; reflexivity.
Qed.

Lemma stops_app (a b : list Effect) : stops (a ++ b) = stops a ++ stops b.
Proof.
  induction a as [| e a IH]; [reflexivity |].
  destruct e; cbn; by rewrite ?IH.
Qed.

Lemma sent_frames_app (a b : list Effect) :
  sent_frames (a ++ b) = sent_frames a ++ sent_frames b.
Proof.
  induction a as [| e a IH]; [reflexivity |].
  destruct e; cbn; by rewrite ?IH.
Qed.

Lemma stops_track_stops (ts : list nat) : stops (map TrackStop ts) = ts.
Proof. induction ts as [| t ts IH]; cbn; by rewrite ?IH. Qed.

Lemma sent_frames_track_stops (ts : list nat) : sent_frames (map TrackStop ts) = [].
Proof. induction ts as [| t ts IH]; cbn; by rewrite ?IH. Qed.

Lemma notifications_quiet (added : list Effect) :
  forallb is_notify added = true -> stops added = [] /\ sent_frames added = [].
Proof.
  induction added as [| e added IH]; [done |].
  destruct e; cbn; try discriminate. exact IH.
Qed.

Lemma handler_step_stops (st st' : State) :
  handler_step st st' -> stops (trace st') = stops (trace st).
Proof.
  intros [_ _ _ _ _ _ _ _ (added & -> & Hn) _].
  rewrite stops_app. destruct (notifications_quiet added Hn) as [-> _].
  by rewrite app_nil_r.
Qed.

Lemma handler_step_sent (st st' : State) :
  handler_step st st' -> sent_frames (trace st') = sent_frames (trace st).
Proof.
  intros [_ _ _ _ _ _ _ _ (added & -> & Hn) _].
  rewrite sent_frames_app. destruct (notifications_quiet added Hn) as [_ ->].
  by rewrite app_nil_r.
Qed.

Lemma after_endCall (st st1 : State) :
  endCall st = Returned tt st1 ->
  exists sent,
    close_outcome st = inr sent /\
    notify "onCallEnded" VUndefined (cleared st sent) = Returned tt st1 /\
    handler_step (cleared st sent) st1.
Proof.
  rewrite endCall_run. destruct (close_outcome st) as [e | sent]; [discriminate |].
  intros Hrun. exists sent. split; [reflexivity |]. split; [exact Hrun |].
  destruct (notify_step "onCallEnded" VUndefined (cleared st sent))
    as (st' & Hst' & Hstep).
  congruence.
Qed.

(** With nothing left to release, [endCall] is the callback and no more. *)
Lemma endCall_idle (st : State) :
  peerConnection st = None -> localStream st = None ->
  remoteStream st = None -> sessionId st = VNull ->
  endCall st = notify "onCallEnded" VUndefined st.
Proof.
  intros Hpc Hls Hrs Hsid. rewrite endCall_run.
  unfold close_outcome, cleared, released, release_effects, held_tracks.
  rewrite Hsid, Hpc, Hls. cbn. rewrite !app_nil_r.
  destruct st; cbn in *; subst; reflexivity.
Qed.

(** ** endCall twice (C1) *)

(** C1, as the code has it.  After a first [endCall] has completed, a second
    one is exactly one more run of the call-ended callback: it stops no
    track, closes nothing and sends nothing.  So over the two calls each
    track of the held local stream is stopped once, by the first call,
    while a registered call-ended handler is notified by each call, twice
    in all. *)
Theorem endCall_twice (st st1 : State) :
  endCall st = Returned tt st1 ->
  endCall st1 = notify "onCallEnded" VUndefined st1 /\
  stops (trace st1) = stops (trace st) ++ held_tracks st /\
  stops (trace (final (endCall st1))) = stops (trace st1) /\
  (forall id, slot_of st "onCallEnded" = Some (UserFn id) ->
     exists sent,
       close_outcome st = inr sent /\
       trace st1 =
         trace st ++ release_effects st ++ sent ++ [Notify id VUndefined] /\
       endCall st1 =
         Returned tt (with_trace (trace st1 ++ [Notify id VUndefined]) st1)).
Proof.
  intros Hfirst.
  destruct (after_endCall st st1 Hfirst) as (sent & Hout & Hrun & Hstep).
  assert (Hidle : endCall st1 = notify "onCallEnded" VUndefined st1).
  { apply endCall_idle.
    - by rewrite (hs_peerConnection _ _ Hstep).
    - by rewrite (hs_localStream _ _ Hstep).
    - by rewrite (hs_remoteStream _ _ Hstep).
    - by rewrite (hs_sessionId _ _ Hstep). }
  assert (Hsent : stops sent = []).
  { unfold close_outcome in Hout.
    destruct (truthy (sessionId st) && isConnected st);
      [destruct (websocket st) as [[u []] |] |]; by inversion Hout. }
  split; [exact Hidle |]. split; [| split].
  - rewrite (handler_step_stops _ _ Hstep). cbn.
    unfold release_effects.
    rewrite !stops_app, stops_track_stops, Hsent, app_nil_r.
    by destruct (peerConnection st).
  - rewrite Hidle.
    destruct (notify_step "onCallEnded" VUndefined st1) as (st2 & -> & Hstep2).
    apply (handler_step_stops _ _ Hstep2).
  - intros id Hslot. exists sent. split; [exact Hout |].
    assert (Hslot' : slot_of (cleared st sent) "onCallEnded" = Some (UserFn id))
      by exact Hslot.
    rewrite (notify_user _ _ _ _ Hslot') in Hrun.
    injection Hrun as <-. split.
    + cbn. by rewrite <- !app_assoc.
    + rewrite Hidle. by apply notify_user.
Qed.

Lemma endCall_twice_witness :
  endCall after_first_endCall =
    notify "onCallEnded" VUndefined after_first_endCall /\
  stops (trace (final (endCall after_first_endCall))) = [1%nat; 2%nat].
Proof.
  assert (Hfirst : endCall in_call = Returned tt after_first_endCall)
    by (vm_compute; reflexivity).
  destruct (endCall_twice in_call after_first_endCall Hfirst)
    as (Hsecond & Hstops1 & Hstops2 & _).
  split; [exact Hsecond |].
  rewrite Hstops2, Hstops1. reflexivity.
Defined.

(** C1 as claimed fails: two calls in succession notify the call-ended
    handler twice. *)
Lemma endCall_twice_notifies_twice :
  returns (endCall in_call) = true /\
  trace (final (endCall (final (endCall in_call)))) =
    [PcClose; TrackStop 1; TrackStop 2;
     WsSend (close_session_message (VStr "s1"));
     Notify 7 VUndefined; Notify 7 VUndefined].
Proof. split; vm_compute; reflexivity. Qed.

(** ** close_session on teardown *)

(** X17.  [endCall] puts a [close_session] frame on the wire only when there
    is a session id, the connected flag is up and the socket is open.
    Provided the socket can be asked to send whenever the guard lets the
    request through (it is present and no longer connecting), [endCall]
    returns normally, sends that one frame or nothing, and in either case
    leaves the session id and the remote stream cleared. *)
Theorem endCall_close_session (st : State) :
  (sent_frames (trace (final (endCall st))) <> sent_frames (trace st) ->
     truthy (sessionId st) = true /\ isConnected st = true /\
     socket_open st = true) /\
  ((truthy (sessionId st) && isConnected st = true ->
      exists ws, websocket st = Some ws /\ readyState ws <> CONNECTING) ->
   exists st',
     endCall st = Returned tt st' /\
     sessionId st' = VNull /\ remoteStream st' = None /\
     sent_frames (trace st') =
       sent_frames (trace st) ++
       if truthy (sessionId st) && isConnected st && socket_open st
       then [close_session_message (sessionId st)] else []).
Proof.
  assert (Hrel : sent_frames (trace (released st)) = sent_frames (trace st)).
  { cbn. unfold release_effects.
    rewrite !sent_frames_app, sent_frames_track_stops, app_nil_r.
    destruct (peerConnection st); cbn; by rewrite app_nil_r. }
  split.
  - rewrite endCall_run. unfold close_outcome, socket_open.
    destruct (truthy (sessionId st)), (isConnected st); cbn [andb];
      try destruct (websocket st) as [[u []] |]; cbn [final readyState];
      try (intros Hne; by destruct (Hne Hrel));
      try (destruct (notify_step "onCallEnded" VUndefined (cleared st []))
             as (st' & -> & Hstep);
           cbn [final]; rewrite (handler_step_sent _ _ Hstep); cbn;
           rewrite app_nil_r; intros Hne; by destruct (Hne Hrel)).
    done.
  - intros Husable. rewrite endCall_run.
    unfold close_outcome, socket_open.
    destruct (truthy (sessionId st) && isConnected st) eqn:Hguard; cbn [andb].
    + destruct (Husable eq_refl) as (ws & -> & Hrs).
      destruct ws as [u rs]. cbn in Hrs. cbn [readyState].
      destruct rs; [done | | |];
        match goal with
        | |- context [notify _ _ (cleared st ?sent)] =>
            destruct (notify_step "onCallEnded" VUndefined (cleared st sent))
              as (st' & -> & Hstep)
        end;
        exists st'; (split; [reflexivity |]);
        rewrite (hs_sessionId _ _ Hstep), (hs_remoteStream _ _ Hstep),
          (handler_step_sent _ _ Hstep);
        cbn [cleared sessionId remoteStream trace with_sessionId
             with_remoteStream with_trace];
        rewrite sent_frames_app, Hrel; cbn; by rewrite ?app_nil_r.
    + destruct (notify_step "onCallEnded" VUndefined (cleared st []))
        as (st' & -> & Hstep).
      exists st'. split; [reflexivity |].
      rewrite (hs_sessionId _ _ Hstep), (hs_remoteStream _ _ Hstep),
        (handler_step_sent _ _ Hstep).
      cbn [cleared sessionId remoteStream trace with_sessionId
           with_remoteStream with_trace].
      rewrite sent_frames_app, Hrel. cbn. by rewrite ?app_nil_r.
Qed.

Lemma endCall_close_session_witness :
  (exists st',
     endCall in_call = Returned tt st' /\
     sessionId st' = VNull /\ remoteStream st' = None /\
     sent_frames (trace st') =
       sent_frames (trace in_call) ++
       if truthy (sessionId in_call) && isConnected in_call && socket_open in_call
       then [close_session_message (sessionId in_call)] else []) /\
  truthy (sessionId in_call) && isConnected in_call && socket_open in_call = true.
Proof.
  split; [| reflexivity].
  apply (proj2 (endCall_close_session in_call)).
  intros _. exists {| url := "ws://localhost:5000/ws"; readyState := OPEN |}.
  split; [reflexivity | discriminate].
Defined.

(** ** createSession on an open channel (C3) *)

Lemma createSession_run (st : State) (ws : WebSocket) :
  isConnected st = true -> websocket st = Some ws -> readyState ws = OPEN ->
  createSession st = Returned (length (promises st)) (session_requested st).
Proof.
  intros Hflag Hws Hopen.
  unfold createSession, bind, new_promise, get. cbn.
  rewrite Hflag. cbn.
  unfold try_catch, bind, ws_send. cbn. rewrite Hws, Hopen. reflexivity.
Qed.

Lemma session_requested_pending (st : State) :
  promise_of (session_requested st) (length (promises st)) = Some Pending.
Proof.
  unfold promise_of. cbn.
  rewrite lookup_app_r by lia. by rewrite Nat.sub_diag.
Qed.

(** C3, as the code has it.  [createSession] looks at nothing but the
    connected flag.  With the flag up and the socket open, every call,
    whatever the session id and however many earlier requests are still
    pending, sends a [create_session] frame, wraps the session-created slot
    once more, arms a ten-second timer and returns a fresh pending
    promise. *)
Theorem createSession_not_exclusive (st : State) (ws : WebSocket) :
  isConnected st = true -> websocket st = Some ws -> readyState ws = OPEN ->
  let p := length (promises st) in
  createSession st = Returned p (session_requested st) /\
  promise_of (session_requested st) p = Some Pending /\
  sent_frames (trace (session_requested st)) =
    sent_frames (trace st) ++ [create_session_message].
Proof.
  intros Hflag Hws Hopen p. split; [| split].
  - by apply (createSession_run st ws).
  - apply session_requested_pending.
  - cbn. by rewrite sent_frames_app.
Qed.

Lemma createSession_not_exclusive_witness :
  createSession after_first_request =
    Returned 1%nat (session_requested after_first_request).
Proof.
  exact (proj1 (createSession_not_exclusive after_first_request
                  {| url := "ws://localhost:5000/ws"; readyState := OPEN |}
                  eq_refl eq_refl eq_refl)).
Defined.

(** C3 as claimed fails: a second request made while the first is pending
    is sent like the first and stays pending; so does one made while a
    session is active. *)
Lemma createSession_second_request_sent :
  promise_of after_first_request 0 = Some Pending /\
  (let st2 := final (createSession after_first_request) in
   promise_of st2 1 = Some Pending /\
   sent_frames (trace st2) = [create_session_message; create_session_message]) /\
  (let st2 := final (createSession in_session) in
   sessionId in_session = VStr "s1" /\
   promise_of st2 0 = Some Pending /\
   sent_frames (trace st2) = [create_session_message]).
Proof. repeat split; vm_compute; reflexivity. Qed.

(** ** The creation timeout and late answers (C2) *)

Lemma fire_run (t : Timer) (st : State) :
  exists st',
    fire t st = Returned tt st' /\
    promises st' =
      match promises st !! timer_promise t with
      | Some Pending => <[timer_promise t := Rejected timeout_error]> (promises st)
      | _ => promises st
      end.
Proof.
  unfold fire, bind, reject, settle, set_slot, modify.
  eexists. split; [reflexivity |].
  by destruct (promises st !! timer_promise t) as [[| |] |].
Qed.

Lemma fire_keeps (t : Timer) (st : State) (p : nat) :
  pending_or_timed_out st p -> pending_or_timed_out (final (fire t st)) p.
Proof.
  intros Hp. destruct (fire_run t st) as (st' & -> & Hpr). cbn [final].
  unfold pending_or_timed_out. rewrite Hpr.
  destruct (promises st !! timer_promise t) as [[| v | e] |] eqn:Ht; try exact Hp.
  destruct (decide (timer_promise t = p)) as [<- | Hne].
  - right. apply list_lookup_insert_eq. by eapply lookup_lt_Some.
  - by rewrite list_lookup_insert_ne.
Qed.

Lemma fire_own (t : Timer) (st : State) :
  pending_or_timed_out st (timer_promise t) ->
  promises (final (fire t st)) !! timer_promise t = Some (Rejected timeout_error).
Proof.
  intros Hp. destruct (fire_run t st) as (st' & -> & Hpr). cbn [final].
  rewrite Hpr. destruct Hp as [Hp | Hp]; rewrite Hp; [| exact Hp].
  apply list_lookup_insert_eq. by eapply lookup_lt_Some.
Qed.

Lemma fire_all_cons (t : Timer) (rest : list Timer) (st : State) :
  final (fire_all (t :: rest) st) = final (fire_all rest (final (fire t st))).
Proof.
  cbn [fire_all]. rewrite final_bind.
  by destruct (fire_run t st) as (st' & -> & _).
Qed.

Lemma fire_all_keeps (ts : list Timer) (st : State) (p : nat) :
  promises st !! p = Some (Rejected timeout_error) ->
  promises (final (fire_all ts st)) !! p = Some (Rejected timeout_error).
Proof.
  revert st. induction ts as [| t ts IH]; intros st Hp; [exact Hp |].
  rewrite fire_all_cons. apply IH.
  destruct (fire_run t st) as (st' & -> & Hpr). cbn [final]. rewrite Hpr.
  destruct (promises st !! timer_promise t) as [[| v | e] |] eqn:Ht; try exact Hp.
  rewrite list_lookup_insert_ne; [exact Hp | congruence].
Qed.

Lemma fire_all_rejects (ts : list Timer) (st : State) (t : Timer) :
  t ∈ ts -> pending_or_timed_out st (timer_promise t) ->
  promises (final (fire_all ts st)) !! timer_promise t =
    Some (Rejected timeout_error).
Proof.
  revert st. induction ts as [| t0 ts IH]; intros st Hin Hp.
  - by apply elem_of_nil in Hin.
  - rewrite fire_all_cons. apply elem_of_cons in Hin as [-> | Hin].
    + apply fire_all_keeps. by apply fire_own.
    + apply IH; [exact Hin |]. by apply fire_keeps.
Qed.



(** Once a timer is due, letting the time pass settles its promise: if it
    was still pending it is now rejected with the timeout error. *)
Lemma timer_rejects (st : State) (t : Timer) (d : Z) :
  t ∈ timers st -> due t <= now st + Z.max 0 d ->
  promise_of st (timer_promise t) = Some Pending ->
  promise_of (final (elapse d st)) (timer_promise t) =
    Some (Rejected timeout_error).
Proof.
  intros Hin Hdue Hp. unfold promise_of, elapse.
  apply fire_all_rejects.
  - apply list_elem_of_filter. by split.
  - by left.
Qed.

(** A [session_created] message: the id it carries is stored, then the
    session-created slot is notified. *)
Lemma session_created_run `{platform : Platform} (data : JsVal) (st : State) :
  is_str (get_prop data "action") "session_created" = true ->
  exists st',
    handleWebSocketMessage data st = Returned tt st' /\
    handler_step (with_sessionId (get_prop data "session_id") st) st'.
Proof.
  intros Haction.
  destruct data; try discriminate Haction.
  unfold handleWebSocketMessage. rewrite Haction.
  unfold bind, modify.
  apply notify_step.
Qed.




(** ** The remote answer (C4, C8) *)

(** [handleRemoteAnswer], case by case. *)
Lemma handleRemoteAnswer_run `{platform : Platform} (answer : JsVal) (st : State) :
  handleRemoteAnswer answer st =
  match peerConnection st with
  | None =>
      Returned tt
        (with_trace
           (trace st ++ [ConsoleError "Peer connection not established" NoArg]) st)
  | Some pc =>
      match RTCSessionDescription_check answer with
      | Some e =>
          notify "onError" negotiation_error_message (answer_failed st [] e)
      | None =>
          match pc_setRemoteDescription pc answer with
          | inl e =>
              notify "onError" negotiation_error_message
                (answer_failed st [PcSetRemoteDescription answer] e)
          | inr pc' => Returned tt (answer_applied st pc' answer)
          end
      end
  end.
Proof.
  unfold handleRemoteAnswer, try_catch, bind, get.
  destruct (peerConnection st) as [pc |] eqn:Hpc; [| reflexivity].
  destruct (RTCSessionDescription_check answer) as [e |]; [reflexivity |].
  unfold setRemoteDescription, bind. cbn.
  destruct (pc_setRemoteDescription pc answer) as [e | pc']; cbn.
  - unfold answer_failed. cbn. by rewrite <- app_assoc.
  - unfold answer_applied. cbn. by rewrite <- app_assoc.
Qed.




Lemma notifications_report (added : list Effect) :
  forallb is_notify added = true -> forallb is_report added = true.
Proof.
  induction added as [| e added IH]; [done |].
  destruct e; cbn; try discriminate. exact IH.
Qed.

(** A failed answer: what the [catch] block leaves behind. *)
Lemma answer_failure_step (st st' : State) (issued : list Effect) (e : JsError) :
  forallb is_report issued = true ->
  handler_step (answer_failed st issued e) st' ->
  peerConnection st' = peerConnection st /\
  localStream st' = localStream st /\
  remoteStream st' = remoteStream st /\
  sessionId st' = sessionId st /\
  websocket st' = websocket st /\
  isConnected st' = isConnected st /\
  exists added, trace st' = trace st ++ added /\ forallb is_report added = true.
Proof.
  intros Hissued [Hws Hpc Hls Hrs Hsid Hflag _ _ (added & Htr & Hn) _].
  repeat split; try assumption.
  exists (issued ++ [ConsoleError "Error handling remote answer:" (ArgErr e)] ++ added).
  split.
  - rewrite Htr. cbn. by rewrite <- !app_assoc.
  - rewrite !forallb_app, Hissued, (notifications_report _ Hn). reflexivity.
Qed.




(** ** Frames that do not parse (C7) *)







(** ** The callback table keeps its seven slots *)

Lemma keeps_ret {A} (a : A) : keeps_table (ret a).
Proof. by intros st Hok. Qed.

Lemma keeps_throw {A} (e : JsError) : keeps_table (throw (A := A) e).
Proof. by intros st Hok. Qed.

Lemma keeps_bind {A B} (c : M A) (k : A -> M B) :
  keeps_table c -> (forall a, keeps_table (k a)) -> keeps_table (bind c k).
Proof.
  intros Hc Hk st Hok. rewrite final_bind.
  specialize (Hc st Hok). destruct (c st) as [a st' | e st']; [| exact Hc].
  by apply Hk.
Qed.

Lemma keeps_try_catch {A} (c : M A) (h : JsError -> M A) :
  keeps_table c -> (forall e, keeps_table (h e)) -> keeps_table (try_catch c h).
Proof.
  intros Hc Hh st Hok. unfold try_catch.
  specialize (Hc st Hok). destruct (c st) as [a st' | e st']; [exact Hc |].
  by apply Hh.
Qed.

Lemma keeps_get : keeps_table get.
Proof. by intros st Hok. Qed.

Lemma keeps_modify (f : State -> State) :
  (forall st, callbacks (f st) = callbacks st) -> keeps_table (modify f).
Proof. intros Hf st Hok. unfold table_ok, modify. cbn. by rewrite Hf. Qed.

Lemma keeps_emit (e : Effect) : keeps_table (emit e).
Proof. by apply keeps_modify. Qed.

Lemma keeps_settle (p : nat) (s : PromiseState) : keeps_table (settle p s).
Proof.
  apply keeps_modify. intros st.
  by destruct (promises st !! p) as [[| |] |].
Qed.

Lemma keeps_new_promise : keeps_table new_promise.
Proof. by intros st Hok. Qed.

Lemma keeps_slot (name : string) : keeps_table (slot name).
Proof. by intros st Hok. Qed.

Lemma keeps_set_slot (name : string) (h : option Handler) :
  name ∈ event_names -> keeps_table (set_slot name h).
Proof.
  intros Hin st Hok. unfold table_ok in *. cbn.
  rewrite dom_insert_L, Hok. set_solver.
Qed.

Lemma session_created_known : "onSessionCreated" ∈ event_names.
Proof. unfold event_names. set_solver. Qed.

Lemma keeps_setTimeout (delay : Z) (p : nat) (orig : option Handler) :
  keeps_table (setTimeout delay p orig).
Proof. by apply keeps_modify. Qed.

Lemma keeps_ws_send (payload : JsVal) : keeps_table (ws_send payload).
Proof.
  intros st Hok. unfold ws_send.
  by destruct (websocket st) as [[u []] |].
Qed.

Lemma keeps_ws_close : keeps_table ws_close.
Proof. intros st Hok. unfold ws_close. by destruct (websocket st). Qed.

Lemma keeps_stop_tracks (ts : list nat) : keeps_table (stop_tracks ts).
Proof. intros st Hok. by rewrite stop_tracks_run. Qed.

Lemma keeps_call (h : Handler) : forall arg, keeps_table (call h arg).
Proof.
  revert h. fix IH 1. intros h arg.
  destruct h as [id | p orig | orig]; cbn [call].
  - apply keeps_emit.
  - apply keeps_bind; [apply keeps_settle | intros _].
    apply keeps_bind; [apply keeps_slot | intros cb].
    apply keeps_bind;
      [apply keeps_set_slot, session_created_known | intros _].
    destruct orig as [o |]; [apply IH | apply keeps_ret].
  - destruct orig as [o |]; [apply IH | apply keeps_ret].
Qed.

Lemma keeps_notify (name : string) (arg : JsVal) : keeps_table (notify name arg).
Proof.
  apply keeps_bind; [apply keeps_slot | intros [h |]].
  - apply keeps_call.
  - apply keeps_ret.
Qed.

Create HintDb keeps.
#[local] Hint Resolve keeps_ret keeps_throw keeps_get keeps_emit keeps_settle
  keeps_new_promise keeps_slot keeps_setTimeout keeps_ws_send keeps_ws_close
  keeps_stop_tracks keeps_call keeps_notify session_created_known : keeps.
#[local] Hint Extern 1 (keeps_table (console_log _ _)) => apply keeps_emit : keeps.
#[local] Hint Extern 1 (keeps_table (console_error _ _)) => apply keeps_emit : keeps.
#[local] Hint Extern 1 (keeps_table (reject _ _)) => apply keeps_settle : keeps.
#[local] Hint Extern 1 (keeps_table (modify _)) =>
  apply keeps_modify; intros; reflexivity : keeps.
#[local] Hint Extern 2 (keeps_table (set_slot _ _)) =>
  apply keeps_set_slot : keeps.

(** One step of the rule: close a leaf, or split a [bind] or a
    [try_catch]. *)
Ltac keeps_step :=
  first
    [ solve [auto with keeps]
    | apply keeps_bind; [| intros ?]
    | apply keeps_try_catch; [| intros ?] ].

Lemma keeps_handleRemoteAnswer `{platform : Platform} (answer : JsVal) :
  keeps_table (handleRemoteAnswer answer).
Proof.
  intros st Hok. rewrite handleRemoteAnswer_run.
  destruct (peerConnection st) as [pc |]; [| exact Hok].
  destruct (RTCSessionDescription_check answer) as [e |];
    [by apply keeps_notify |].
  destruct (pc_setRemoteDescription pc answer) as [e | pc'];
    [by apply keeps_notify | exact Hok].
Qed.

Lemma keeps_handleWebSocketMessage `{platform : Platform} (data : JsVal) :
  keeps_table (handleWebSocketMessage data).
Proof.
  unfold handleWebSocketMessage.
  destruct data; try apply keeps_throw; cbv zeta;
    repeat match goal with
           | |- context [if ?b then _ else _] => destruct b
           end;
    repeat first [apply keeps_handleRemoteAnswer | keeps_step].
Qed.

Lemma keeps_createSession : keeps_table createSession.
Proof.
  unfold createSession.
  apply keeps_bind; [auto with keeps | intros p].
  apply keeps_bind; [auto with keeps | intros st0].
  destruct (negb (isConnected st0)); repeat keeps_step.
Qed.

Lemma keeps_fire_all (ts : list Timer) : keeps_table (fire_all ts).
Proof.
  induction ts as [| t ts IH]; cbn [fire_all]; [apply keeps_ret |].
  apply keeps_bind; [| intros _; exact IH].
  unfold fire. repeat keeps_step.
Qed.

Lemma keeps_elapse (d : Z) : keeps_table (elapse d).
Proof. intros st Hok. unfold elapse. by apply keeps_fire_all. Qed.

Lemma keeps_endCall : keeps_table endCall.
Proof.
  unfold endCall.
  apply keeps_bind; [| intros _].
  { apply keeps_bind; [auto with keeps | intros st0].
    destruct (peerConnection st0); repeat keeps_step. }
  apply keeps_bind; [| intros _].
  { apply keeps_bind; [auto with keeps | intros st0].
    destruct (localStream st0); repeat keeps_step. }
  apply keeps_bind; [| intros _].
  { apply keeps_bind; [auto with keeps | intros st0].
    destruct (truthy (sessionId st0) && isConnected st0); repeat keeps_step. }
  repeat keeps_step.
Qed.

(** The calls the UI and the event loop can make on the service. *)
Lemma keeps_run `{platform : Platform} (ev : Event) (st : State) :
  table_ok st -> table_ok (run ev st).
Proof.
  intros Hok. destruct ev; cbn [run].
  - (* on *)
    unfold on, bind, get. cbn.
    destruct (decide (is_Some (callbacks st !! eventName))) as [Hsome | Hnone];
      [| exact Hok].
    apply keeps_set_slot; [| exact Hok].
    unfold table_ok in Hok. rewrite <- Hok. by apply elem_of_dom.
  - by apply keeps_createSession.
  - by apply keeps_elapse.
  - unfold onmessage. destruct (JSON_parse frame) as [e | data]; [exact Hok |].
    by apply keeps_handleWebSocketMessage.
  - unfold setLanguages, bind, get. cbn.
    destruct (negb (truthy (sessionId st)) || negb (isConnected st));
      [exact Hok | by apply keeps_ws_send].
  - by apply keeps_endCall.
  - revert st Hok. unfold disconnect.
    apply keeps_bind; [apply keeps_endCall | intros _].
    apply keeps_bind; [auto with keeps | intros st0].
    destruct (websocket st0), (isConnected st0); repeat keeps_step.
Qed.

(** Starting from the constructor, the table holds exactly the seven slots
    after any sequence of calls. *)
Lemma table_ok_always `{platform : Platform} (evs : list Event) :
  table_ok (foldl (fun st ev => run ev st) constructor evs).
Proof.
  assert (Hgen : forall st, table_ok st ->
            table_ok (foldl (fun st ev => run ev st) st evs)).
  { induction evs as [| ev evs IH]; intros st Hok; [exact Hok |].
    cbn. apply IH. by apply keeps_run. }
  apply Hgen, constructor_slots.
Qed.


(** * Beyond the claims: the handshake, the channel and the table *)

(** ** One response, many requests *)

Lemma session_created_eq `{platform : Platform} (data : JsVal) (st : State) :
  is_str (get_prop data "action") "session_created" = true ->
  handleWebSocketMessage data st =
    notify "onSessionCreated" (get_prop data "session_id")
      (with_sessionId (get_prop data "session_id") st).
Proof.
  intros Haction. destruct data; try discriminate Haction.
  unfold handleWebSocketMessage. by rewrite Haction.
Qed.

(** Calling the slot that [ps] requests have wrapped resolves every one of
    them that is still pending, then runs the callback underneath. *)
Lemma call_wrapped (ps : list nat) (orig : option Handler) (arg : JsVal) :
  forall st,
  NoDup ps ->
  (forall p, p ∈ ps -> promises st !! p = Some Pending) ->
  exists st',
    match wrapped ps orig with
    | Some h => call h arg st
    | None => ret tt st
    end = Returned tt st' /\
    handler_step st st' /\
    (forall p, p ∈ ps -> promises st' !! p = Some (Resolved arg)) /\
    (forall id, orig = Some (UserFn id) ->
       trace st' = trace st ++ [Notify id arg]) /\
    (orig = None -> trace st' = trace st).
Proof.
  induction ps as [| p rest IH]; intros st Hnodup Hpending.
  - cbn [wrapped]. destruct orig as [h |].
    + destruct (call_step h arg st) as (st' & Hrun & Hstep).
      exists st'. split; [exact Hrun |]. split; [exact Hstep |].
      split; [| split].
      * intros p Hin. by apply elem_of_nil in Hin.
      * intros id [= ->]. cbn in Hrun. by injection Hrun as <-.
      * discriminate.
    + exists st. split; [reflexivity |].
      split; [apply handler_step_refl |]. split; [| split].
      * intros p Hin. by apply elem_of_nil in Hin.
      * discriminate.
      * reflexivity.
  - apply NoDup_cons in Hnodup as [Hfresh Hnodup].
    set (st1 := with_promises (<[p := Resolved arg]> (promises st)) st).
    set (st2 := with_callbacks
                  (<["onSessionCreated" :=
                       Some (Forwarder (slot_of st1 "onSessionCreated"))]>
                     (callbacks st1)) st1).
    assert (Hcall :
      call (TempSessionHandler p (wrapped rest orig)) arg st =
      match wrapped rest orig with
      | Some o => call o arg st2
      | None => ret tt st2
      end).
    { cbn [call]. unfold bind, resolve, settle, modify, slot, set_slot.
      rewrite (Hpending p) by apply list_elem_of_here.
      by destruct (wrapped rest orig). }
    cbn [wrapped]. rewrite Hcall.
    assert (Hstep2 : handler_step st st2).
    { split; try reflexivity.
      - exists []. by rewrite app_nil_r.
      - intros q s Hq Hs. cbn.
        destruct (decide (p = q)) as [-> | Hne].
        + rewrite (Hpending q) in Hq by apply list_elem_of_here. congruence.
        + by rewrite list_lookup_insert_ne. }
    destruct (IH st2 Hnodup) as (st' & Hrun & Hstep & Hres & Huser & Hnone).
    { intros q Hq. cbn.
      rewrite list_lookup_insert_ne by (intros ->; contradiction).
      apply Hpending. by apply list_elem_of_further. }
    exists st'. split; [exact Hrun |].
    split; [by eapply handler_step_trans |].
    split; [| split; assumption].
    intros q Hq. apply elem_of_cons in Hq as [-> | Hq]; [| by apply Hres].
    apply (hs_settled _ _ Hstep); [| discriminate].
    cbn. apply list_lookup_insert_eq.
    eapply lookup_lt_Some, Hpending, list_elem_of_here.
Qed.

(** What [n] requests in a row leave behind on an open channel. *)
Lemma requests_run (st : State) (ws : WebSocket) (n : nat) :
  isConnected st = true -> websocket st = Some ws -> readyState ws = OPEN ->
  isConnected (requests n st) = true /\
  websocket (requests n st) = Some ws /\
  sessionId (requests n st) = sessionId st /\
  promises (requests n st) = promises st ++ replicate n Pending /\
  slot_of (requests n st) "onSessionCreated" =
    wrapped (reverse (seq (length (promises st)) n))
      (slot_of st "onSessionCreated") /\
  trace (requests n st) =
    trace st ++ replicate n (WsSend create_session_message).
Proof.
  intros Hflag Hws Hopen. induction n as [| n IH].
  - cbn. by rewrite !app_nil_r.
  - destruct IH as (IHflag & IHws & IHsid & IHpr & IHslot & IHtr).
    cbn [requests].
    rewrite (createSession_run _ ws IHflag IHws Hopen). cbn [final].
    repeat split; try assumption.
    + rewrite replicate_S_end, app_assoc, <- IHpr. reflexivity.
    + rewrite seq_S, reverse_snoc. cbn [wrapped].
      rewrite <- IHslot. unfold slot_of at 1.
      cbn [session_requested callbacks with_timers with_callbacks].
      rewrite lookup_insert_eq. cbn [default].
      rewrite IHpr, length_app, length_replicate. reflexivity.
    + rewrite replicate_S_end, app_assoc, <- IHtr. reflexivity.
Qed.

(** X1.  On an open channel, a [session_created] message that arrives
    after [n] requests were made in a row resolves every one of them with
    the id it carries and stores that id; the callback that held the slot
    before the first request runs once. *)
Theorem one_response_resolves_all `{platform : Platform} (st : State)
    (ws : WebSocket) (n : nat) (data : JsVal) :
  isConnected st = true -> websocket st = Some ws -> readyState ws = OPEN ->
  is_str (get_prop data "action") "session_created" = true ->
  let sid := get_prop data "session_id" in
  exists st',
    handleWebSocketMessage data (requests n st) = Returned tt st' /\
    sessionId st' = sid /\
    (forall i, (i < n)%nat ->
       promise_of st' (length (promises st) + i) = Some (Resolved sid)) /\
    (forall id, slot_of st "onSessionCreated" = Some (UserFn id) ->
       trace st' =
         trace st ++ replicate n (WsSend create_session_message)
           ++ [Notify id sid]) /\
    (slot_of st "onSessionCreated" = None ->
       trace st' = trace st ++ replicate n (WsSend create_session_message)).
Proof.
  intros Hflag Hws Hopen Haction sid.
  destruct (requests_run st ws n Hflag Hws Hopen)
    as (_ & _ & _ & Hpr & Hslot & Htr).
  rewrite (session_created_eq data _ Haction). fold sid.
  unfold notify, bind, slot.
  change (slot_of (with_sessionId sid (requests n st)) "onSessionCreated")
    with (slot_of (requests n st) "onSessionCreated").
  rewrite Hslot.
  destruct (call_wrapped (reverse (seq (length (promises st)) n))
              (slot_of st "onSessionCreated") sid
              (with_sessionId sid (requests n st)))
    as (st' & Hrun & Hstep & Hres & Huser & Hnone).
  { rewrite reverse_Permutation. apply NoDup_seq. }
  { intros p Hp. apply elem_of_reverse, elem_of_seq in Hp. cbn. rewrite Hpr.
    rewrite lookup_app_r by lia. apply lookup_replicate_2. lia. }
  exists st'. split; [revert Hrun; by destruct (wrapped _ _) |].
  split; [by rewrite (hs_sessionId _ _ Hstep) |].
  split; [| split].
  - intros i Hi. apply Hres. apply elem_of_reverse, elem_of_seq. lia.
  - intros id Hid. rewrite (Huser id Hid). cbn. by rewrite Htr, <- app_assoc.
  - intros Hid. rewrite (Hnone Hid). cbn. by rewrite Htr.
Qed.

Lemma one_response_resolves_all_witness :
  exists st',
    handleWebSocketMessage (platform := browser) session_created_s1
      (requests 2 listening) = Returned tt st' /\
    sessionId st' = VStr "s1" /\
    promise_of st' 0 = Some (Resolved (VStr "s1")) /\
    promise_of st' 1 = Some (Resolved (VStr "s1")) /\
    trace st' =
      [WsSend create_session_message; WsSend create_session_message;
       Notify 5 (VStr "s1")].
Proof.
  destruct (one_response_resolves_all (platform := browser) listening
              {| url := "ws://localhost:5000/ws"; readyState := OPEN |}
              2 session_created_s1 eq_refl eq_refl eq_refl eq_refl)
    as (st' & Hrun & Hsid & Hres & Huser & _).
  exists st'. split; [exact Hrun |]. split; [exact Hsid |].
  split; [apply (Hres 0%nat); lia |].
  split; [apply (Hres 1%nat); lia |].
  apply (Huser 5%nat). reflexivity.
Defined.

(** ** The creation timer and the callback table *)

Lemma only_slot_refl (m : gmap string (option Handler)) : only_slot_changed m m.
Proof. by left. Qed.

Lemma only_slot_trans (m1 m2 m3 : gmap string (option Handler)) :
  only_slot_changed m1 m2 -> only_slot_changed m2 m3 -> only_slot_changed m1 m3.
Proof.
  intros [-> | [x ->]] [-> | [y ->]]; [by left | right | right | right]; eauto.
  exists y. apply insert_insert_eq.
Qed.

(** Setting the slot after any such change gives the same table as setting
    it at once. *)
Lemma only_slot_overwritten (m m' : gmap string (option Handler))
    (h : option Handler) :
  only_slot_changed m m' ->
  <["onSessionCreated" := h]> m' = <["onSessionCreated" := h]> m.
Proof. intros [-> | [x ->]]; [done | apply insert_insert_eq]. Qed.

(** The wrapper [createSession] installs, unfolded once. *)
Lemma call_temp (p : nat) (orig : option Handler) (arg : JsVal) (st : State) :
  let st1 := final (resolve p arg st) in
  let st2 :=
    with_callbacks
      (<["onSessionCreated" := Some (Forwarder (slot_of st1 "onSessionCreated"))]>
         (callbacks st1)) st1 in
  call (TempSessionHandler p orig) arg st =
  match orig with
  | Some o => call o arg st2
  | None => Returned tt st2
  end.
Proof.
  cbn [call]. unfold bind, resolve, settle, modify, slot, set_slot. cbn.
  by destruct orig.
Qed.

Lemma resolve_table (p : nat) (arg : JsVal) (st : State) :
  callbacks (final (resolve p arg st)) = callbacks st.
Proof.
  unfold resolve, settle, modify. cbn.
  by destruct (promises st !! p) as [[| |] |].
Qed.

Lemma call_table (h : Handler) :
  forall (arg : JsVal) (st : State),
  only_slot_changed (callbacks st) (callbacks (final (call h arg st))).
Proof.
  revert h. fix IH 1. intros h arg st.
  destruct h as [id | p orig | orig].
  - apply only_slot_refl.
  - rewrite call_temp.
    set (st1 := final (resolve p arg st)).
    set (st2 := with_callbacks _ st1).
    apply only_slot_trans with (m2 := callbacks st2).
    { right. unfold st2, st1. cbn [callbacks with_callbacks].
      rewrite resolve_table. by eexists. }
    destruct orig as [o |]; [apply (IH o) | apply only_slot_refl].
  - cbn [call]. destruct orig as [o |]; [apply (IH o) | apply only_slot_refl].
Qed.

Lemma notify_table (name : string) (arg : JsVal) (st : State) :
  only_slot_changed (callbacks st) (callbacks (final (notify name arg st))).
Proof.
  unfold notify, bind, slot. destruct (slot_of st name) as [h |].
  - apply call_table.
  - apply only_slot_refl.
Qed.

Lemma fire_table (t : Timer) (st : State) :
  callbacks (final (fire t st)) =
    <["onSessionCreated" := timer_original t]> (callbacks st).
Proof.
  unfold fire, bind, reject, settle, set_slot, modify. cbn.
  by destruct (promises st !! timer_promise t) as [[| |] |].
Qed.

Lemma fire_all_app (a b : list Timer) (st : State) :
  final (fire_all (a ++ b) st) = final (fire_all b (final (fire_all a st))).
Proof.
  revert st. induction a as [| t a IH]; intros st; [reflexivity |].
  change ((t :: a) ++ b) with (t :: (a ++ b)).
  by rewrite !fire_all_cons, IH.
Qed.

Lemma fire_all_table (ts : list Timer) (st : State) :
  only_slot_changed (callbacks st) (callbacks (final (fire_all ts st))).
Proof.
  revert st. induction ts as [| t ts IH]; intros st; [apply only_slot_refl |].
  rewrite fire_all_cons.
  eapply only_slot_trans; [| apply IH].
  right. exists (timer_original t). apply fire_table.
Qed.

(** A settled promise is not touched by the timers. *)
Lemma fire_all_settled (ts : list Timer) (st : State) (p : nat)
    (s : PromiseState) :
  promises st !! p = Some s -> s <> Pending ->
  promises (final (fire_all ts st)) !! p = Some s.
Proof.
  revert st. induction ts as [| t ts IH]; intros st Hp Hs; [exact Hp |].
  rewrite fire_all_cons. apply IH; [| exact Hs].
  destruct (fire_run t st) as (st' & -> & Hpr). cbn [final]. rewrite Hpr.
  destruct (promises st !! timer_promise t) as [[| v | e] |] eqn:Ht; try exact Hp.
  rewrite list_lookup_insert_ne; [exact Hp | congruence].
Qed.

(** When the youngest timer is due, it runs last and its saved callback is
    what the slot is left with. *)
Lemma elapse_youngest (st : State) (older : list Timer) (t : Timer) (d : Z) :
  timers st = older ++ [t] -> due t <= now st + Z.max 0 d ->
  callbacks (final (elapse d st)) =
    <["onSessionCreated" := timer_original t]> (callbacks st).
Proof.
  intros Hts Hdue. unfold elapse. rewrite Hts, filter_app.
  rewrite (filter_cons_True _ t []) by exact Hdue.
  rewrite filter_nil, fire_all_app, fire_all_cons. cbn [fire_all ret final].
  rewrite fire_table.
  set (st0 := with_timers _ _).
  change (callbacks st) with (callbacks st0).
  apply only_slot_overwritten, fire_all_table.
Qed.

(** X2.  A request made on an open channel leaves no mark on the callback
    table once its ten seconds are over: whether no response came or a
    [session_created] message resolved the request in between, the table
    is then exactly what it was before [createSession], and a request that
    was resolved stays resolved. *)
Theorem creation_timer_restores_table `{platform : Platform} (st : State)
    (ws : WebSocket) (d : Z) :
  isConnected st = true -> websocket st = Some ws -> readyState ws = OPEN ->
  is_Some (callbacks st !! "onSessionCreated") ->
  10000 <= d ->
  callbacks (final (elapse d (final (createSession st)))) = callbacks st /\
  (forall data st2,
     is_str (get_prop data "action") "session_created" = true ->
     handleWebSocketMessage data (final (createSession st)) = Returned tt st2 ->
     callbacks (final (elapse d st2)) = callbacks st /\
     promise_of (final (elapse d st2)) (length (promises st)) =
       Some (Resolved (get_prop data "session_id"))).
Proof.
  intros Hflag Hws Hopen [orig Horig] Hd.
  rewrite (createSession_run st ws Hflag Hws Hopen). cbn [final].
  assert (Hslot : slot_of st "onSessionCreated" = orig)
    by (unfold slot_of; by rewrite Horig).
  assert (Hback : forall m,
            only_slot_changed (callbacks st) m ->
            <["onSessionCreated" := orig]> m = callbacks st).
  { intros m Hm. rewrite (only_slot_overwritten _ _ _ Hm).
    by apply insert_id. }
  split.
  - rewrite (elapse_youngest (session_requested st) (timers st)
               {| due := now st + 10000;
                  timer_promise := length (promises st);
                  timer_original := slot_of st "onSessionCreated" |} d);
      [| reflexivity | cbn; lia].
    cbn [timer_original]. rewrite Hslot. apply Hback.
    right. by eexists.
  - intros data st2 Haction Hrun.
    set (sid := get_prop data "session_id").
    rewrite (session_created_eq data _ Haction) in Hrun. fold sid in Hrun.
    destruct (notify_step "onSessionCreated" sid
                (with_sessionId sid (session_requested st)))
      as (st2' & Hrun' & Hstep).
    assert (st2' = st2) as -> by congruence.
    assert (Htable : only_slot_changed (callbacks st) (callbacks st2)).
    { eapply only_slot_trans with (m2 := callbacks (session_requested st)).
      - right. by eexists.
      - pose proof (notify_table "onSessionCreated" sid
                      (with_sessionId sid (session_requested st))) as Hn.
        by rewrite Hrun in Hn. }
    split.
    + rewrite (elapse_youngest st2 (timers st)
                 {| due := now st + 10000;
                    timer_promise := length (promises st);
                    timer_original := slot_of st "onSessionCreated" |} d).
      * cbn [timer_original]. rewrite Hslot. by apply Hback.
      * by rewrite (hs_timers _ _ Hstep).
      * rewrite (hs_now _ _ Hstep). cbn. lia.
    + assert (Hres : promises st2 !! length (promises st) = Some (Resolved sid)).
      { destruct (call_wrapped [length (promises st)]
                    (slot_of st "onSessionCreated") sid
                    (with_sessionId sid (session_requested st)))
          as (st3 & Hrun3 & _ & Hres3 & _).
        - apply NoDup_singleton.
        - intros p ->%list_elem_of_singleton. apply session_requested_pending.
        - cbn [wrapped] in Hrun3.
          assert (Hsame : notify "onSessionCreated" sid
                            (with_sessionId sid (session_requested st)) =
                          Returned tt st3).
          { rewrite <- Hrun3. unfold notify, bind, slot, slot_of. cbn.
            by rewrite lookup_insert_eq. }
          assert (st3 = st2) as -> by congruence.
          apply Hres3, list_elem_of_singleton. reflexivity. }
      unfold promise_of, elapse. by apply fire_all_settled.
Qed.

Lemma creation_timer_restores_table_witness :
  callbacks (final (elapse 10000 (final (createSession listening)))) =
    callbacks listening /\
  (let st2 :=
     final (handleWebSocketMessage (platform := browser) session_created_s1
              (final (createSession listening))) in
   callbacks (final (elapse 10000 st2)) = callbacks listening /\
   promise_of (final (elapse 10000 st2)) 0 = Some (Resolved (VStr "s1"))).
Proof.
  destruct (creation_timer_restores_table (platform := browser) listening
              {| url := "ws://localhost:5000/ws"; readyState := OPEN |} 10000
              eq_refl eq_refl eq_refl) as [Hsilent Hanswered].
  - by eexists.
  - lia.
  - split; [exact Hsilent |].
    apply (Hanswered session_created_s1); [reflexivity |].
    vm_compute. reflexivity.
Defined.

Lemma slot_of_insert (st : State) (m : gmap string (option Handler))
    (name : string) (h : option Handler) :
  callbacks st = <[name := h]> m -> slot_of st name = h.
Proof. intros Hm. unfold slot_of. by rewrite Hm, lookup_insert_eq. Qed.

(** X3.  Two requests made one after the other on an open channel and
    left unanswered are both rejected with the timeout error, but their
    timers do not unwind the slot: the second timer puts back what it saw
    when the second request was made, so the session-created slot is left
    holding the wrapper of the first request, not the callback that was
    there before. *)
Theorem overlapping_timeouts_leave_wrapper (st : State) (ws : WebSocket) (d : Z) :
  isConnected st = true -> websocket st = Some ws -> readyState ws = OPEN ->
  10000 <= d ->
  let p := length (promises st) in
  let st' := final (elapse d (requests 2 st)) in
  promise_of st' p = Some (Rejected timeout_error) /\
  promise_of st' (S p) = Some (Rejected timeout_error) /\
  slot_of st' "onSessionCreated" =
    Some (TempSessionHandler p (slot_of st "onSessionCreated")).
Proof.
  intros Hflag Hws Hopen Hd p st'.
  assert (Hreq : requests 2 st = session_requested (session_requested st)).
  { cbn [requests].
    rewrite (createSession_run st ws Hflag Hws Hopen). cbn [final].
    by rewrite (createSession_run (session_requested st) ws Hflag Hws Hopen). }
  unfold st'. rewrite Hreq.
  set (t1 := {| due := now st + 10000; timer_promise := p;
                timer_original := slot_of st "onSessionCreated" |}).
  set (t2 := {| due := now st + 10000; timer_promise := S p;
                timer_original :=
                  Some (TempSessionHandler p (slot_of st "onSessionCreated")) |}).
  assert (Hts : timers (session_requested (session_requested st)) =
                (timers st ++ [t1]) ++ [t2]).
  { cbn. unfold t1, t2, p, slot_of. cbn.
    rewrite lookup_insert_eq, length_app. cbn.
    by rewrite Nat.add_1_r. }
  assert (Hpr : promises (session_requested (session_requested st)) =
                promises st ++ [Pending; Pending]).
  { cbn. by rewrite <- app_assoc. }
  split; [| split].
  - apply (timer_rejects _ t1 d).
    + rewrite Hts. set_solver.
    + cbn. lia.
    + unfold promise_of. rewrite Hpr. cbn.
      rewrite lookup_app_r by (unfold p; lia).
      by replace (p - length (promises st))%nat with 0%nat by (unfold p; lia).
  - apply (timer_rejects _ t2 d).
    + rewrite Hts. set_solver.
    + cbn. lia.
    + unfold promise_of. rewrite Hpr. cbn.
      rewrite lookup_app_r by (unfold p; lia).
      by replace (S p - length (promises st))%nat with 1%nat by (unfold p; lia).
  - eapply slot_of_insert.
    apply (elapse_youngest _ (timers st ++ [t1]) t2 d Hts). cbn. lia.
Qed.

Lemma overlapping_timeouts_leave_wrapper_witness :
  let st' := final (elapse 10000 (requests 2 listening)) in
  promise_of st' 0 = Some (Rejected timeout_error) /\
  promise_of st' 1 = Some (Rejected timeout_error) /\
  slot_of st' "onSessionCreated" =
    Some (TempSessionHandler 0 (slot_of listening "onSessionCreated")).
Proof.
  apply (overlapping_timeouts_leave_wrapper listening
           {| url := "ws://localhost:5000/ws"; readyState := OPEN |} 10000);
    [reflexivity | reflexivity | reflexivity | lia].
Defined.

(** X4.  Registering a session-created handler through [on] while a
    request is pending takes the request's wrapper out of the slot.  The
    [session_created] message that follows stores its id and reaches the
    new handler, but the request stays pending; it is rejected when its
    timer fires, and the timer then puts the callback of before the
    request back, dropping the handler just registered. *)
Theorem handler_registered_while_pending `{platform : Platform} (st : State)
    (ws : WebSocket) (id : nat) (data : JsVal) (d : Z) :
  isConnected st = true -> websocket st = Some ws -> readyState ws = OPEN ->
  is_str (get_prop data "action") "session_created" = true ->
  10000 <= d ->
  let p := length (promises st) in
  let sid := get_prop data "session_id" in
  let st2 := final (on "onSessionCreated" (Some (UserFn id))
                      (final (createSession st))) in
  exists st3,
    handleWebSocketMessage data st2 = Returned tt st3 /\
    promise_of st3 p = Some Pending /\
    sessionId st3 = sid /\
    trace st3 = trace st ++ [WsSend create_session_message; Notify id sid] /\
    promise_of (final (elapse d st3)) p = Some (Rejected timeout_error) /\
    slot_of (final (elapse d st3)) "onSessionCreated" =
      slot_of st "onSessionCreated".
Proof.
  intros Hflag Hws Hopen Haction Hd p sid st2.
  set (st1 := session_requested st).
  assert (Hst2 : st2 =
            with_callbacks
              (<["onSessionCreated" := Some (UserFn id)]> (callbacks st1)) st1).
  { unfold st2. rewrite (createSession_run st ws Hflag Hws Hopen). cbn [final].
    unfold on, bind, get. cbn -[session_requested].
    rewrite decide_True; [reflexivity |].
    unfold session_requested. cbn. rewrite lookup_insert_eq. by eexists. }
  set (t := {| due := now st + 10000; timer_promise := p;
               timer_original := slot_of st "onSessionCreated" |}).
  rewrite (session_created_eq data _ Haction). fold sid.
  rewrite (notify_user _ id).
  2: { eapply slot_of_insert. rewrite Hst2. reflexivity. }
  eexists. split; [reflexivity |].
  assert (Hpend : promise_of
            (with_trace
               (trace (with_sessionId sid st2) ++ [Notify id sid])
               (with_sessionId sid st2)) p = Some Pending).
  { rewrite Hst2. apply session_requested_pending. }
  split; [exact Hpend |]. split; [reflexivity |]. split; [| split].
  - rewrite Hst2. cbn. by rewrite <- app_assoc.
  - apply (timer_rejects _ t d); [| cbn; rewrite Hst2; cbn; lia | exact Hpend].
    rewrite Hst2. cbn. set_solver.
  - eapply slot_of_insert.
    apply (elapse_youngest _ (timers st) t d).
    + rewrite Hst2. reflexivity.
    + rewrite Hst2. cbn. lia.
Qed.

Lemma handler_registered_while_pending_witness :
  let st2 := final (on "onSessionCreated" (Some (UserFn 9))
                      (final (createSession listening))) in
  exists st3,
    handleWebSocketMessage (platform := browser) session_created_s1 st2 =
      Returned tt st3 /\
    promise_of st3 0 = Some Pending /\
    sessionId st3 = VStr "s1" /\
    trace st3 = [WsSend create_session_message; Notify 9 (VStr "s1")] /\
    promise_of (final (elapse 10000 st3)) 0 = Some (Rejected timeout_error) /\
    slot_of (final (elapse 10000 st3)) "onSessionCreated" = Some (UserFn 5).
Proof.
  apply (handler_registered_while_pending (platform := browser) listening
           {| url := "ws://localhost:5000/ws"; readyState := OPEN |}
           9 session_created_s1 10000);
    [reflexivity | reflexivity | reflexivity | reflexivity | lia].
Defined.

(** ** What the dispatcher and the other calls never do *)

Lemma report_step_refl (st : State) : report_step st st.
Proof. split; try reflexivity. exists []. by rewrite app_nil_r. Qed.

Lemma handler_report_step (st st' : State) :
  handler_step st st' -> report_step st st'.
Proof.
  intros [Hws _ Hls Hrs _ Hflag Hts _ (added & Htr & Hn) _].
  split; try assumption.
  exists added. split; [exact Htr | by apply notifications_report].
Qed.

Lemma closes_app (a b : list Effect) :
  closes (a ++ b) = (closes a + closes b)%nat.
Proof.
  induction a as [| e a IH]; [reflexivity |].
  destruct e; cbn; by rewrite ?IH.
Qed.

Lemma reports_unsent (added : list Effect) :
  forallb is_report added = true ->
  sent_frames added = [] /\ stops added = [] /\ closes added = O.
Proof.
  induction added as [| e added IH]; [done |].
  destruct e; cbn; try discriminate; exact IH.
Qed.


Lemma notify_frame (name : string) (arg : JsVal) (st : State) :
  let st' := final (notify name arg st) in
  report_step st st' /\ sessionId st' = sessionId st /\
  peerConnection st' = peerConnection st.
Proof.
  destruct (notify_step name arg st) as (st1 & Hrun & Hstep).
  cbn zeta. rewrite Hrun. cbn [final].
  split; [by apply handler_report_step |].
  split; [apply (hs_sessionId _ _ Hstep) | apply (hs_peerConnection _ _ Hstep)].
Qed.

Lemma log_frame (msg : string) (arg : LogArg) (st : State) :
  let st' := final (console_log msg arg st) in
  report_step st st' /\ sessionId st' = sessionId st /\
  peerConnection st' = peerConnection st.
Proof.
  cbn. split; [| by split]. split; try reflexivity. by eexists.
Qed.

Lemma answer_failed_frame (st : State) (issued : list Effect) (e : JsError) :
  forallb is_report issued = true ->
  let st' := final (notify "onError" negotiation_error_message
                      (answer_failed st issued e)) in
  report_step st st' /\ sessionId st' = sessionId st /\
  peerConnection st' = peerConnection st.
Proof.
  intros Hissued.
  destruct (notify_step "onError" negotiation_error_message
              (answer_failed st issued e)) as (st1 & Hrun & Hstep).
  cbn zeta. rewrite Hrun. cbn [final].
  destruct (answer_failure_step st st1 issued e Hissued Hstep)
    as (Hpc & Hls & Hrs & Hsid & Hws & Hflag & Htr).
  split; [| by split].
  split; try assumption. apply (hs_timers _ _ Hstep).
Qed.

Lemma handleRemoteAnswer_frame `{platform : Platform} (answer : JsVal)
    (st : State) :
  let st' := final (handleRemoteAnswer answer st) in
  report_step st st' /\ sessionId st' = sessionId st.
Proof.
  cbn zeta. rewrite handleRemoteAnswer_run.
  destruct (peerConnection st) as [pc |].
  - destruct (RTCSessionDescription_check answer) as [e |].
    + destruct (answer_failed_frame st [] e eq_refl) as (H1 & H2 & _).
      by split.
    + destruct (pc_setRemoteDescription pc answer) as [e | pc'].
      * destruct (answer_failed_frame st [PcSetRemoteDescription answer] e
                    eq_refl) as (H1 & H2 & _).
        by split.
      * cbn [final]. split; [| reflexivity].
        split; try reflexivity. by eexists.
  - cbn [final]. split; [| reflexivity].
    split; try reflexivity. by eexists.
Qed.

Lemma session_created_frame `{platform : Platform} (data : JsVal) (st : State) :
  is_str (get_prop data "action") "session_created" = true ->
  let st' := final (handleWebSocketMessage data st) in
  report_step st st' /\ peerConnection st' = peerConnection st.
Proof.
  intros Haction. cbn zeta.
  destruct (session_created_run data st Haction) as (st' & -> & Hstep).
  cbn [final].
  split; [| apply (hs_peerConnection _ _ Hstep)].
  destruct (handler_report_step _ _ Hstep) as [Hws Hflag Hls Hrs Hts Htr].
  by split.
Qed.

(** The dispatcher, branch by branch. *)
Lemma dispatcher_frame `{platform : Platform} (data : JsVal) (st : State) :
  let st' := final (handleWebSocketMessage data st) in
  report_step st st' /\
  (is_str (get_prop data "action") "session_created" = false ->
     sessionId st' = sessionId st) /\
  (is_str (get_prop data "action") "answer" = false ->
     peerConnection st' = peerConnection st).
Proof.
  cbn zeta.
  destruct (is_str (get_prop data "action") "session_created") eqn:Hsc.
  { destruct (session_created_frame data st Hsc) as [H1 H2].
    split; [exact H1 |]. split; [discriminate | by intros _]. }
  assert (Hweak : forall st',
            report_step st st' /\ sessionId st' = sessionId st /\
            peerConnection st' = peerConnection st ->
            report_step st st' /\
            (false = false -> sessionId st' = sessionId st) /\
            (is_str (get_prop data "action") "answer" = false ->
               peerConnection st' = peerConnection st)).
  { intros st' (H1 & H2 & H3).
    split; [exact H1 | split; intros _; assumption]. }
  destruct data as [| | b | m e | s | items | props];
    try (apply Hweak; split; [apply report_step_refl | by split]);
    try (apply Hweak; apply (log_frame "Unhandled websocket message:")).
  unfold handleWebSocketMessage. cbv zeta. rewrite Hsc.
  destruct (is_str (get_prop (VObj props) "action") "answer") eqn:Han.
  { destruct (handleRemoteAnswer_frame (get_prop (VObj props) "answer") st)
      as [H1 H2].
    split; [exact H1 |]. split; [by intros _ | discriminate]. }
  apply Hweak.
  repeat match goal with
         | |- context [if ?b then _ else _] => destruct b
         end;
    first [ apply notify_frame
          | apply log_frame
          | split; [apply report_step_refl | by split] ].
Qed.

(** X5.  Whatever the message, the dispatcher only reports: it sends no
    frame, stops no track and closes nothing, and it leaves the channel,
    the media handles and the timers alone.  The session id changes on
    [session_created] only and the peer connection on [answer] only; in
    particular a [session_state] message saying [closed] releases
    nothing. *)
Theorem dispatcher_only_reports `{platform : Platform} (data : JsVal)
    (st : State) :
  let st' := final (handleWebSocketMessage data st) in
  report_step st st' /\
  sent_frames (trace st') = sent_frames (trace st) /\
  stops (trace st') = stops (trace st) /\
  closes (trace st') = closes (trace st) /\
  (is_str (get_prop data "action") "session_created" = false ->
     sessionId st' = sessionId st) /\
  (is_str (get_prop data "action") "answer" = false ->
     peerConnection st' = peerConnection st).
Proof.
  destruct (dispatcher_frame data st) as (Hstep & Hsid & Hpc). cbn zeta.
  split; [exact Hstep |].
  destruct Hstep as [_ _ _ _ _ (added & Htr & Hn)].
  destruct (reports_unsent added Hn) as (Hsent & Hstops & Hcloses).
  rewrite Htr, sent_frames_app, stops_app, closes_app, Hsent, Hstops, Hcloses.
  rewrite !app_nil_r, Nat.add_0_r.
  split; [reflexivity |]. split; [reflexivity |]. split; [reflexivity |].
  split; assumption.
Qed.







(** ** disconnect *)

Lemma close_outcome_usable (st : State) :
  (truthy (sessionId st) && isConnected st = true ->
     exists ws, websocket st = Some ws /\ readyState ws <> CONNECTING) ->
  exists sent, close_outcome st = inr sent.
Proof.
  intros Husable. unfold close_outcome.
  destruct (truthy (sessionId st) && isConnected st); [| by eexists].
  destruct (Husable eq_refl) as ([u rs] & -> & Hrs). cbn in *.
  destruct rs; [by destruct Hrs | | |]; by eexists.
Qed.

(** X7.  Provided the socket can be asked to send whenever [endCall]
    wants to (it is present and no longer connecting when there is a
    session id and the flag is up), [disconnect] returns and leaves the
    service with no socket, the flag down, no peer connection, no media
    handle and no session id.  It asks the socket to close exactly when
    the service held one with the flag up, and that is all it adds to what
    [endCall] did. *)
Theorem disconnect_resets (st : State) :
  (truthy (sessionId st) && isConnected st = true ->
     exists ws, websocket st = Some ws /\ readyState ws <> CONNECTING) ->
  exists st1 st',
    endCall st = Returned tt st1 /\
    disconnect st = Returned tt st' /\
    websocket st' = None /\ isConnected st' = false /\
    peerConnection st' = None /\ localStream st' = None /\
    remoteStream st' = None /\ sessionId st' = VNull /\
    trace st' =
      trace st1 ++
      match websocket st with
      | Some _ => if isConnected st then [WsClose] else []
      | None => []
      end.
Proof.
  intros Husable.
  destruct (close_outcome_usable st Husable) as (sent & Hout).
  pose proof (endCall_run st) as Hend. rewrite Hout in Hend.
  destruct (notify_step "onCallEnded" VUndefined (cleared st sent))
    as (st1 & Hrun & Hstep).
  rewrite Hrun in Hend.
  exists st1. unfold disconnect, bind. rewrite Hend.
  unfold get, ws_close, modify, emit.
  pose proof (hs_websocket _ _ Hstep) as Hws.
  pose proof (hs_isConnected _ _ Hstep) as Hflag.
  pose proof (hs_peerConnection _ _ Hstep) as Hpc.
  pose proof (hs_localStream _ _ Hstep) as Hls.
  pose proof (hs_remoteStream _ _ Hstep) as Hrs.
  pose proof (hs_sessionId _ _ Hstep) as Hsid.
  cbn in Hws, Hflag, Hpc, Hls, Hrs, Hsid.
  rewrite <- Hws, <- Hflag.
  destruct (websocket st1) as [ws |] eqn:Hws1;
    [destruct (isConnected st1) eqn:Hflag1 |];
    cbn; rewrite ?Hws1; cbn;
    eexists; (split; [reflexivity |]); (split; [reflexivity |]); cbn;
    rewrite ?app_nil_r; by repeat split.
Qed.

Lemma disconnect_resets_witness :
  exists st1 st',
    endCall in_call = Returned tt st1 /\
    disconnect in_call = Returned tt st' /\
    websocket st' = None /\ isConnected st' = false /\
    peerConnection st' = None /\ localStream st' = None /\
    remoteStream st' = None /\ sessionId st' = VNull /\
    trace st' =
      trace st1 ++
      match websocket in_call with
      | Some _ => if isConnected in_call then [WsClose] else []
      | None => []
      end.
Proof.
  apply (disconnect_resets in_call).
  intros _. exists {| url := "ws://localhost:5000/ws"; readyState := OPEN |}.
  split; [reflexivity | discriminate].
Defined.

(** X8.  With a session id and the flag up over a socket that is missing
    or still connecting, the [send] inside [endCall] throws.  [endCall]
    and [disconnect] then stop half way: the peer connection is closed and
    the local tracks are stopped, but the session id and the remote stream
    are kept, the call-ended callback is not run, and [disconnect] neither
    closes the socket nor lowers the flag. *)
Theorem teardown_aborts_when_send_throws (st : State) :
  truthy (sessionId st) = true -> isConnected st = true ->
  websocket st = None \/
  (exists ws, websocket st = Some ws /\ readyState ws = CONNECTING) ->
  exists e,
    endCall st = Thrown e (released st) /\
    disconnect st = Thrown e (released st) /\
    stops (trace (released st)) = stops (trace st) ++ held_tracks st /\
    peerConnection (released st) = None /\
    localStream (released st) = None /\
    sessionId (released st) = sessionId st /\
    remoteStream (released st) = remoteStream st /\
    websocket (released st) = websocket st /\
    isConnected (released st) = true /\
    forallb (fun e => negb (is_notify e)) (release_effects st) = true /\
    closes (trace (released st)) = closes (trace st).
Proof.
  intros Hsid Hflag Hws.
  assert (Hout : exists e, close_outcome st = inl e).
  { unfold close_outcome. rewrite Hsid, Hflag. cbn.
    destruct Hws as [-> | ([u rs] & -> & Hrs)]; [by eexists |].
    cbn in Hrs. subst rs. by eexists. }
  destruct Hout as (e & Hout). exists e.
  assert (Hend : endCall st = Thrown e (released st))
    by (by rewrite endCall_run, Hout).
  split; [exact Hend |].
  split; [unfold disconnect, bind; by rewrite Hend |].
  assert (Hquiet : forall ts, forallb (fun e => negb (is_notify e))
                                (map TrackStop ts) = true)
    by (induction ts; [done | exact IHts]).
  assert (Hcl : forall ts, closes (map TrackStop ts) = O)
    by (induction ts; [done | exact IHts]).
  repeat split; try exact Hflag.
  - cbn. unfold release_effects.
    rewrite !stops_app, stops_track_stops.
    by destruct (peerConnection st).
  - unfold release_effects. rewrite forallb_app, Hquiet.
    by destruct (peerConnection st).
  - cbn. unfold release_effects. rewrite !closes_app, Hcl.
    destruct (peerConnection st); cbn; lia.
Qed.

Lemma teardown_aborts_when_send_throws_witness :
  websocket stale_session = None /\
  isConnected stale_session = true /\
  sessionId stale_session = VStr "s1" /\
  exists e,
    endCall stale_session = Thrown e (released stale_session) /\
    disconnect stale_session = Thrown e (released stale_session) /\
    sessionId (released stale_session) = VStr "s1".
Proof.
  split; [reflexivity |]. split; [reflexivity |]. split; [reflexivity |].
  destruct (teardown_aborts_when_send_throws stale_session
              eq_refl eq_refl (or_introl eq_refl))
    as (e & Hend & Hdis & _ & _ & _ & Hsid & _).
  exists e. split; [exact Hend |]. split; [exact Hdis | exact Hsid].
Defined.

(** ** connect and the socket's handlers *)

Section ConnectFacts.
Variable WebSocket_check : string -> option JsError.

Lemma connect_run (url : string) (st : State) :
  WebSocket_check url = None ->
  connect WebSocket_check url st =
    Returned (length (promises st))
      (with_websocket (Some {| url := url; readyState := CONNECTING |})
         (with_promises (promises st ++ [Pending]) st)).
Proof.
  intros Hcheck. unfold connect, bind, new_promise, try_catch. by rewrite Hcheck.
Qed.

(** X9.  When the platform refuses the URL, [connect] neither throws nor
    touches the socket the service holds or the connected flag: it writes
    a console error, tells the error handler ['Không thể kết nối đến máy
    chủ'] and returns a promise rejected with the platform's error. *)
Theorem connect_refused_reports (url : string) (e : JsError) (st : State) :
  WebSocket_check url = Some e ->
  (slot_of st "onError" = None \/ exists id, slot_of st "onError" = Some (UserFn id)) ->
  let p := length (promises st) in
  exists st',
    connect WebSocket_check url st = Returned p st' /\
    promise_of st' p = Some (Rejected e) /\
    websocket st' = websocket st /\
    isConnected st' = isConnected st /\
    trace st' =
      trace st ++
        ConsoleError "Failed to create WebSocket:" (ArgErr e) ::
        match slot_of st "onError" with
        | Some (UserFn id) => [Notify id (VStr "Không thể kết nối đến máy chủ")]
        | _ => []
        end.
Proof.
  intros Hcheck Hslot p.
  destruct (settle_fresh (promises st) (Rejected e)) as [Hl Hi].
  unfold connect, bind, new_promise, try_catch, throw. rewrite Hcheck.
  unfold console_error, emit, modify.
  destruct Hslot as [Hnone | [id Hid]].
  - rewrite notify_none by exact Hnone.
    unfold reject, settle, modify. cbn. rewrite Hl, Hi, Hnone.
    eexists. split; [reflexivity |]. repeat split.
    unfold promise_of, p. cbn.
    rewrite lookup_app_r by lia. by rewrite Nat.sub_diag.
  - rewrite (notify_user _ id) by exact Hid.
    unfold reject, settle, modify. cbn. rewrite Hl, Hi, Hid.
    eexists. split; [reflexivity |]. repeat split.
    + unfold promise_of, p. cbn.
      rewrite lookup_app_r by lia. by rewrite Nat.sub_diag.
    + cbn. by rewrite <- app_assoc.
Qed.

(** X10.  [connect] on an accepted URL swaps in a socket that is still
    connecting and does nothing else: the socket held before is not
    closed and the connected flag is not lowered.  So when the flag was
    up, a [createSession] made before the new socket opens passes the
    guard, has its [send] refused, and comes back rejected with the
    socket's InvalidStateError, with nothing sent, no timer armed and the
    callback table untouched. *)
Theorem reconnect_breaks_createSession (url : string) (st : State) :
  WebSocket_check url = None ->
  isConnected st = true ->
  let p := length (promises st) in
  exists st1 st2,
    connect WebSocket_check url st = Returned p st1 /\
    websocket st1 = Some {| url := url; readyState := CONNECTING |} /\
    isConnected st1 = true /\
    trace st1 = trace st /\
    createSession st1 = Returned (S p) st2 /\
    promise_of st2 (S p) =
      Some (Rejected (InvalidStateError "Still in CONNECTING state.")) /\
    sent_frames (trace st2) = sent_frames (trace st) /\
    timers st2 = timers st /\
    callbacks st2 = callbacks st.
Proof.
  intros Hcheck Hflag p.
  rewrite (connect_run url st Hcheck).
  eexists. eexists. split; [reflexivity |].
  split; [reflexivity |]. split; [exact Hflag |]. split; [reflexivity |].
  unfold createSession, bind, new_promise, get, try_catch, ws_send. cbn.
  rewrite Hflag. cbn. unfold reject, settle, modify.
  destruct (settle_fresh (promises st ++ [Pending])
              (Rejected (InvalidStateError "Still in CONNECTING state.")))
    as [Hl Hi].
  cbn. rewrite Hl, Hi. cbn.
  replace (length (promises st ++ [Pending])) with (S p)
    by (rewrite length_app; unfold p; cbn; lia).
  split; [reflexivity |]. split.
  - unfold promise_of. cbn.
    rewrite lookup_app_r by (rewrite length_app; unfold p; cbn; lia).
    replace (S p - length (promises st ++ [Pending]))%nat with 0%nat
      by (rewrite length_app; unfold p; cbn; lia).
    reflexivity.
  - cbn. rewrite sent_frames_app. cbn. by rewrite app_nil_r.
Qed.

(** X11.  [connect] on an accepted URL, then the socket opening: the
    promise of the call is resolved, the flag is up over an open socket,
    the connection-state handler is told [true] once, and a
    [createSession] made next puts its frame on the wire. *)
Theorem connect_then_open (url : string) (st : State) :
  WebSocket_check url = None ->
  (slot_of st "onConnectionStateChange" = None \/
   exists id, slot_of st "onConnectionStateChange" = Some (UserFn id)) ->
  let p := length (promises st) in
  exists st1 st3,
    connect WebSocket_check url st = Returned p st1 /\
    onopen p (final (socket_becomes OPEN st1)) = Returned tt st3 /\
    promise_of st3 p = Some (Resolved VUndefined) /\
    isConnected st3 = true /\
    websocket st3 = Some {| url := url; readyState := OPEN |} /\
    trace st3 =
      trace st ++
        ConsoleLog "WebSocket connected" NoArg ::
        match slot_of st "onConnectionStateChange" with
        | Some (UserFn id) => [Notify id (VBool true)]
        | _ => []
        end /\
    sent_frames (trace (final (createSession st3))) =
      sent_frames (trace st3) ++ [create_session_message].
Proof.
  intros Hcheck Hslot p.
  rewrite (connect_run url st Hcheck).
  destruct (settle_fresh (promises st) (Resolved VUndefined)) as [Hl Hi].
  assert (Hsend : forall st3 : State,
            isConnected st3 = true ->
            websocket st3 = Some {| url := url; readyState := OPEN |} ->
            sent_frames (trace (final (createSession st3))) =
              sent_frames (trace st3) ++ [create_session_message]).
  { intros st3 Hf Hw.
    rewrite (createSession_run st3 _ Hf Hw eq_refl). cbn.
    by rewrite sent_frames_app. }
  set (st2 := with_isConnected true
                (with_trace (trace st ++ [ConsoleLog "WebSocket connected" NoArg])
                   (with_websocket (Some {| url := url; readyState := OPEN |})
                      (with_promises (promises st ++ [Pending]) st)))).
  assert (Hopen : onopen p
            (final (socket_becomes OPEN
               (with_websocket (Some {| url := url; readyState := CONNECTING |})
                  (with_promises (promises st ++ [Pending]) st)))) =
          bind (notify "onConnectionStateChange" (VBool true))
               (fun _ => resolve p VUndefined) st2) by reflexivity.
  assert (Hresolved : forall st' : State,
            promises st' = promises st ++ [Pending] ->
            resolve p VUndefined st' =
              Returned tt
                (with_promises (promises st ++ [Resolved VUndefined]) st')).
  { intros st' Hpr. unfold resolve, settle, modify, p.
    by rewrite Hpr, Hl, Hi. }
  assert (Hlook : (promises st ++ [Resolved VUndefined]) !! p =
                  Some (Resolved VUndefined)).
  { unfold p. rewrite lookup_app_r by lia. by rewrite Nat.sub_diag. }
  destruct Hslot as [Hnone | [id Hid]].
  - eexists. eexists. split; [reflexivity |].
    rewrite Hopen. unfold bind.
    rewrite (notify_none _ _ st2) by exact Hnone.
    rewrite (Hresolved st2) by reflexivity.
    split; [reflexivity |]. split; [exact Hlook |].
    split; [reflexivity |]. split; [reflexivity |].
    split; [by rewrite Hnone |].
    by apply Hsend.
  - eexists. eexists. split; [reflexivity |].
    rewrite Hopen. unfold bind.
    rewrite (notify_user _ id _ st2) by exact Hid.
    rewrite Hresolved by reflexivity.
    split; [reflexivity |]. split; [exact Hlook |].
    split; [reflexivity |]. split; [reflexivity |].
    split; [rewrite Hid; cbn; by rewrite <- app_assoc |].
    by apply Hsend.
Qed.

End ConnectFacts.

Lemma connect_refused_reports_witness :
  exists st',
    connect browser_socket_check "ws://localhost:5000/ws#top" in_call =
      Returned 0%nat st' /\
    promise_of st' 0 =
      Some (Rejected
              (SyntaxError "Failed to construct 'WebSocket': The URL is invalid.")) /\
    websocket st' = websocket in_call /\
    isConnected st' = isConnected in_call /\
    trace st' =
      [ConsoleError "Failed to create WebSocket:"
         (ArgErr (SyntaxError
                    "Failed to construct 'WebSocket': The URL is invalid."));
       Notify 4 (VStr "Không thể kết nối đến máy chủ")].
Proof.
  apply (connect_refused_reports browser_socket_check
           "ws://localhost:5000/ws#top"
           (SyntaxError "Failed to construct 'WebSocket': The URL is invalid.")
           in_call).
  - reflexivity.
  - right. by exists 4%nat.
Defined.

Lemma reconnect_breaks_createSession_witness :
  exists st1 st2,
    connect browser_socket_check "wss://example.org/ws" connected =
      Returned 0%nat st1 /\
    websocket st1 =
      Some {| url := "wss://example.org/ws"; readyState := CONNECTING |} /\
    isConnected st1 = true /\
    trace st1 = trace connected /\
    createSession st1 = Returned 1%nat st2 /\
    promise_of st2 1 =
      Some (Rejected (InvalidStateError "Still in CONNECTING state.")) /\
    sent_frames (trace st2) = sent_frames (trace connected) /\
    timers st2 = timers connected /\
    callbacks st2 = callbacks connected.
Proof.
  apply (reconnect_breaks_createSession browser_socket_check
           "wss://example.org/ws" connected); reflexivity.
Defined.

Lemma connect_then_open_witness :
  exists st1 st3,
    connect browser_socket_check "ws://localhost:5000/ws" constructor =
      Returned 0%nat st1 /\
    onopen 0 (final (socket_becomes OPEN st1)) = Returned tt st3 /\
    promise_of st3 0 = Some (Resolved VUndefined) /\
    isConnected st3 = true /\
    websocket st3 =
      Some {| url := "ws://localhost:5000/ws"; readyState := OPEN |} /\
    trace st3 = [ConsoleLog "WebSocket connected" NoArg] /\
    sent_frames (trace (final (createSession st3))) =
      sent_frames (trace st3) ++ [create_session_message].
Proof.
  apply (connect_then_open browser_socket_check "ws://localhost:5000/ws"
           constructor).
  - reflexivity.
  - by left.
Defined.


(** ** Registration and dispatch *)

Lemma is_str_eq (v : JsVal) (lit : string) :
  is_str v lit = true -> v = VStr lit.
Proof.
  destruct v; try discriminate. cbn. by intros ->%String.eqb_eq.
Qed.

Lemma route_dispatch `{platform : Platform} (action slot field : string)
    (data : JsVal) (st : State) :
  (action, slot, field) ∈ routes ->
  is_str (get_prop data "action") action = true ->
  handleWebSocketMessage data st = notify slot (get_prop data field) st.
Proof.
  intros Hroute Haction. apply is_str_eq in Haction.
  destruct data; try discriminate Haction.
  unfold handleWebSocketMessage. cbv zeta. rewrite Haction.
  unfold routes in Hroute.
  repeat (apply elem_of_cons in Hroute as [[= -> -> ->] | Hroute];
          [reflexivity |]).
  by apply elem_of_nil in Hroute.
Qed.

(** X13.  For the transcript, translation and error messages: once a
    handler is registered with [on] on the matching slot, a message of
    that kind calls it once with the text the message carries, and no
    handler registered there before; after [on] with [null] on the same
    slot the message calls nobody.  In both cases nothing else in the
    service changes. *)
Theorem registered_handler_hears_messages `{platform : Platform}
    (action slot field : string) (id : nat) (data : JsVal) (st : State) :
  (action, slot, field) ∈ routes ->
  is_Some (callbacks st !! slot) ->
  is_str (get_prop data "action") action = true ->
  let st1 := final (on slot (Some (UserFn id)) st) in
  let st2 := final (on slot None st1) in
  handleWebSocketMessage data st1 =
    Returned tt (with_trace (trace st ++ [Notify id (get_prop data field)]) st1) /\
  handleWebSocketMessage data st2 = Returned tt st2 /\
  trace st2 = trace st.
Proof.
  intros Hroute Hslot Haction st1 st2.
  assert (Hst1 : st1 =
            with_callbacks (<[slot := Some (UserFn id)]> (callbacks st)) st).
  { unfold st1, on, bind, get. cbn. by rewrite decide_True. }
  assert (Hst2 : st2 = with_callbacks (<[slot := None]> (callbacks st1)) st1).
  { unfold st2, on, bind, get. cbn. rewrite decide_True; [reflexivity |].
    rewrite Hst1. cbn. rewrite lookup_insert_eq. by eexists. }
  rewrite !(route_dispatch action slot field data _ Hroute Haction).
  split; [| split].
  - rewrite (notify_user slot id).
    + by rewrite Hst1.
    + eapply slot_of_insert. by rewrite Hst1.
  - apply notify_none. eapply slot_of_insert. by rewrite Hst2.
  - by rewrite Hst2, Hst1.
Qed.

Lemma registered_handler_hears_messages_witness :
  let data := VObj [("action", VStr "translation"); ("text", VStr "hello")] in
  let st1 := final (on "onTranslation" (Some (UserFn 3)) in_call) in
  let st2 := final (on "onTranslation" None st1) in
  handleWebSocketMessage (platform := browser) data st1 =
    Returned tt (with_trace (trace in_call ++ [Notify 3 (VStr "hello")]) st1) /\
  handleWebSocketMessage (platform := browser) data st2 = Returned tt st2 /\
  trace st2 = trace in_call.
Proof.
  apply (registered_handler_hears_messages (platform := browser)
           "translation" "onTranslation" "text" 3
           (VObj [("action", VStr "translation"); ("text", VStr "hello")])
           in_call).
  - unfold routes. set_solver.
  - by eexists.
  - reflexivity.
Defined.

(** X14.  Once [endCall] has completed, an [answer] message that is still
    on its way is dropped: the dispatcher writes ['Peer connection not
    established'] to the console and returns.  The platform is not asked
    to apply anything and the error handler is not called. *)
Theorem answer_after_hangup_dropped `{platform : Platform} (st st1 : State)
    (data : JsVal) :
  endCall st = Returned tt st1 ->
  is_str (get_prop data "action") "answer" = true ->
  handleWebSocketMessage data st1 =
    Returned tt
      (with_trace
         (trace st1 ++ [ConsoleError "Peer connection not established" NoArg])
         st1).
Proof.
  intros Hend Haction.
  destruct (after_endCall st st1 Hend) as (sent & _ & _ & Hstep).
  pose proof (hs_peerConnection _ _ Hstep) as Hpc. cbn in Hpc.
  pose proof (is_str_eq _ _ Haction) as Heq.
  destruct data; try discriminate Haction.
  unfold handleWebSocketMessage. cbv zeta. rewrite Heq. cbn [is_str String.eqb].
  cbn -[handleRemoteAnswer get_prop].
  by rewrite handleRemoteAnswer_run, Hpc.
Qed.

Lemma answer_after_hangup_dropped_witness :
  handleWebSocketMessage (platform := browser)
    (VObj [("action", VStr "answer"); ("answer", final_answer)])
    after_first_endCall =
    Returned tt
      (with_trace
         (trace after_first_endCall ++
            [ConsoleError "Peer connection not established" NoArg])
         after_first_endCall).
Proof.
  apply (answer_after_hangup_dropped (platform := browser) in_call).
  - vm_compute. reflexivity.
  - reflexivity.
Defined.

(** ** The connected flag over a socket that is not open (C6, C9) *)

(** C6.  The guard of [createSession] reads the connected flag, not the
    socket.  After [connect] is called again while connected, the channel
    is not open, and [createSession] is rejected with the socket's
    InvalidStateError, not with the not-connected error.  While the socket
    is closing and its close event has not fired, the channel is not open
    either, and [createSession] does not fail at all: it returns a pending
    promise and arms its timer, the frame is dropped by the socket, and
    the request is rejected ten seconds later with the timeout error. *)
Theorem createSession_stale_flag :
  (channel_open reconnecting = false /\
   createSession reconnecting =
     Returned 2%nat (final (createSession reconnecting)) /\
   promise_of (final (createSession reconnecting)) 2 =
     Some (Rejected (InvalidStateError "Still in CONNECTING state.")) /\
   sent_frames (trace (final (createSession reconnecting))) = []) /\
  (channel_open closing = false /\
   createSession closing = Returned 1%nat (final (createSession closing)) /\
   promise_of (final (createSession closing)) 1 = Some Pending /\
   timers (final (createSession closing)) =
     [{| due := 10000; timer_promise := 1%nat; timer_original := None |}] /\
   sent_frames (trace (final (createSession closing))) = [] /\
   promise_of (final (elapse 10000 (final (createSession closing)))) 1 =
     Some (Rejected timeout_error)).
Proof. vm_compute. repeat split. Qed.

(** C9.  The guard of the [send] in [endCall] reads the connected flag,
    not the socket.  After [connect] is called again during a call the
    channel is not open, yet the [send] is attempted and throws: the peer
    connection is closed and the local tracks are stopped, but the session
    id and the remote stream are not cleared and the call-ended handler is
    not called.  The same happens, with a TypeError, when the flag was
    raised by a socket the service no longer holds. *)
Theorem endCall_stale_flag :
  (channel_open reconnecting_call = false /\
   endCall reconnecting_call =
     Thrown (InvalidStateError "Still in CONNECTING state.")
       (final (endCall reconnecting_call)) /\
   sessionId (final (endCall reconnecting_call)) = VStr "s1" /\
   remoteStream (final (endCall reconnecting_call)) =
     Some {| tracks := [3%nat; 4%nat] |} /\
   trace (final (endCall reconnecting_call)) =
     [PcClose; TrackStop 1; TrackStop 2]) /\
  (channel_open stale_session = false /\
   endCall stale_session =
     Thrown (TypeError "Cannot read properties of null (reading 'send')")
       (final (endCall stale_session)) /\
   sessionId (final (endCall stale_session)) = VStr "s1").
Proof. vm_compute. repeat split. Qed.

(** ** The callback table, over everything that can happen *)

Section TableKept.
Context `{platform : Platform}.
Variable WebSocket_check : string -> option JsError.

Lemma keeps_connect (url : string) : keeps_table (connect WebSocket_check url).
Proof.
  unfold connect.
  apply keeps_bind; [auto with keeps | intros p].
  apply keeps_bind; [| intros _; apply keeps_ret].
  apply keeps_try_catch.
  - destruct (WebSocket_check url); auto with keeps.
  - intros e. repeat keeps_step.
Qed.

Lemma keeps_onopen (p : nat) : keeps_table (onopen p).
Proof.
  unfold onopen. repeat keeps_step. apply keeps_settle.
Qed.

Lemma keeps_onclose : keeps_table onclose.
Proof. unfold onclose. repeat keeps_step. Qed.

Lemma keeps_socket_becomes (rs : ReadyState) : keeps_table (socket_becomes rs).
Proof.
  apply keeps_modify. intros st. by destruct (websocket st).
Qed.

(** X15.  No call adds or removes a slot.  From any state whose callback
    table holds exactly the seven slots, [connect], the opening and
    closing of the socket, [on], [createSession] with its wrappers and
    timers, [setLanguages], [endCall], [disconnect] and every incoming
    frame leave a table of exactly the seven slots, whether they return or
    throw; so the table has the seven slots after any sequence of them
    from the constructor. *)
Theorem callback_table_kept :
  (forall (a : Activity) (st : State),
     table_ok st -> table_ok (perform WebSocket_check a st)) /\
  (forall acts : list Activity,
     table_ok (foldl (fun st a => perform WebSocket_check a st) constructor acts)).
Proof.
  assert (Hstep : forall (a : Activity) (st : State),
            table_ok st -> table_ok (perform WebSocket_check a st)).
  { intros a st Hok. destruct a; cbn [perform].
    - by apply keeps_run.
    - by apply keeps_connect.
    - by apply keeps_socket_becomes.
    - by apply keeps_onopen.
    - by apply keeps_onclose. }
  split; [exact Hstep |].
  intros acts.
  assert (Hgen : forall st, table_ok st ->
            table_ok (foldl (fun st a => perform WebSocket_check a st) st acts)).
  { induction acts as [| a acts IH]; intros st Hok; [exact Hok |].
    cbn. apply IH. by apply Hstep. }
  apply Hgen, constructor_slots.
Qed.

End TableKept.

(** On [unanswered_requests] the flag is up when the requests are made,
    each wraps the slot and arms a timer, and the table still has its
    seven slots when the timers have fired. *)
Lemma callback_table_kept_witness :
  let step := fun st a => perform (platform := browser) browser_socket_check a st in
  isConnected (foldl step constructor (take 3 unanswered_requests)) = true /\
  slot_of (foldl step constructor (take 5 unanswered_requests)) "onSessionCreated" =
    Some (TempSessionHandler 2 (Some (TempSessionHandler 1 None))) /\
  length (timers (foldl step constructor (take 5 unanswered_requests))) = 2%nat /\
  table_ok (foldl step constructor (take 5 unanswered_requests)) /\
  table_ok (foldl step constructor unanswered_requests).
Proof.
  intros step.
  split; [vm_compute; reflexivity |].
  split; [vm_compute; reflexivity |].
  split; [vm_compute; reflexivity |].
  split.
  - exact (proj2 (callback_table_kept (platform := browser) browser_socket_check)
             (take 5 unanswered_requests)).
  - exact (proj2 (callback_table_kept (platform := browser) browser_socket_check)
             unanswered_requests).
Defined.
